(** * Skill-Maker: the document / artifact merge pipeline

    A shallow embedding of the merge pipeline of the Skill-Maker scripts
    ([scan_code.py], [skill_compiler.py], [expert_interviewer.py]) and the
    properties of its codec, section editor, manifest merges, tool scanner
    and interview loop.

    Python [str] values are sequences of Unicode code points; they are
    modelled as [list N].  Dictionaries decoded from JSON are finite maps
    keyed by such strings. *)

From Stdlib Require Import String Ascii.
From stdpp Require Import gmap list sorting.

Set Warnings "-register-all".
Local Open Scope N_scope.

(* ===================================================================== *)
(** * Python strings *)
(* ===================================================================== *)

Module Py.

Definition char := N.
Abbreviation pystr := (list N).

(** Reader for the literals of the source: the literal is UTF-8 text in
    which a backslash followed by [n] stands for a line feed, as in the
    Python source. *)
Fixpoint literal (bs : list N) : pystr :=
  match bs with
  | [] => []
  | b :: r =>
    if b =? 92 then
      match r with
      | c :: r' => if c =? 110 then 10 :: literal r' else b :: literal r
      | [] => [b]
      end
    else if b <? 128 then b :: literal r
    else if b <? 224 then
      match r with
      | c1 :: r' => ((b - 192) * 64 + (c1 - 128)) :: literal r'
      | _ => []
      end
    else if b <? 240 then
      match r with
      | c1 :: c2 :: r' =>
          ((b - 224) * 4096 + (c1 - 128) * 64 + (c2 - 128)) :: literal r'
      | _ => []
      end
    else
      match r with
      | c1 :: c2 :: c3 :: r' =>
          ((b - 240) * 262144 + (c1 - 128) * 4096 + (c2 - 128) * 64
           + (c3 - 128)) :: literal r'
      | _ => []
      end
  end.

Definition py (lit : string) : pystr :=
  literal (map N_of_ascii (list_ascii_of_string lit)).

(** [str.isspace] on one character, the set that [str.strip],
    [str.rstrip] and [str.lstrip] remove when called without argument. *)
Definition isspace (c : char) : bool :=
  ((9 <=? c) && (c <=? 13)) || ((28 <=? c) && (c <=? 32))
  || (c =? 133) || (c =? 160) || (c =? 5760)
  || ((8192 <=? c) && (c <=? 8202))
  || (c =? 8232) || (c =? 8233) || (c =? 8239) || (c =? 8287)
  || (c =? 12288).

(** [s.rstrip()] *)
Fixpoint rstrip (s : pystr) : pystr :=
  match s with
  | [] => []
  | c :: r =>
    match rstrip r with
    | [] => if isspace c then [] else [c]
    | r' => c :: r'
    end
  end.

(** [s.lstrip()] *)
Fixpoint lstrip (s : pystr) : pystr :=
  match s with
  | [] => []
  | c :: r => if isspace c then lstrip r else s
  end.

(** [s.strip()] *)
Definition strip (s : pystr) : pystr := rstrip (lstrip s).

(** [s == t] on strings *)
Fixpoint str_eqb (s t : pystr) : bool :=
  match s, t with
  | [], [] => true
  | a :: s', b :: t' => (a =? b) && str_eqb s' t'
  | _, _ => false
  end.

(** [s <= t] on strings: lexicographic on code points, the order
    [sorted] uses on a list of [str]. *)
Fixpoint str_leb (s t : pystr) : bool :=
  match s, t with
  | [], _ => true
  | _ :: _, [] => false
  | a :: s', b :: t' => (a <? b) || ((a =? b) && str_leb s' t')
  end.

(** [s.startswith(sub)] *)
Fixpoint startswith (sub s : pystr) : bool :=
  match sub, s with
  | [], _ => true
  | a :: sub', b :: s' => (a =? b) && startswith sub' s'
  | _ :: _, [] => false
  end.

(** [s.endswith(sub)] *)
Definition endswith (sub s : pystr) : bool :=
  (length sub <=? length s)%nat
  && str_eqb (drop (length s - length sub) s) sub.

(** The scan behind [str.find]: [s] is the text from offset [i] on. *)
Fixpoint find_at (sub s : pystr) (i : nat) : option nat :=
  if startswith sub s then Some i
  else match s with
       | [] => None
       | _ :: s' => find_at sub s' (S i)
       end.

(** [s.find(sub, start)] for [start >= 0]; Python's [-1] is [None]. *)
Definition find_from (sub s : pystr) (start : nat) : option nat :=
  if (start <=? length s)%nat then find_at sub (drop start s) start
  else None.

(** [s.find(sub)] *)
Definition find (sub s : pystr) : option nat := find_from sub s 0.

(** [sub in s] *)
Definition contains (sub s : pystr) : bool :=
  match find sub s with Some _ => true | None => false end.

(** [s[a:b]] for [a, b >= 0]: out-of-range bounds are clamped and a
    reversed range is empty. *)
Definition slice (a b : nat) (s : pystr) : pystr := drop a (take b s).

(** [s[:-n]] for a positive literal [n]. *)
Definition drop_last (n : nat) (s : pystr) : pystr :=
  take (length s - n) s.

(** Truth value of an optional string in a condition ([if x:]): both
    [None] and the empty string are false. *)
Definition truthy (x : option pystr) : bool :=
  match x with
  | None | Some [] => false
  | Some (_ :: _) => true
  end.

End Py.
Import Py.

(* ===================================================================== *)
(** * Data model *)
(* ===================================================================== *)

(** Values produced by [json.load] / [json.loads]. A float is kept as
    mantissa and decimal exponent; no operation of the pipeline computes
    with numbers. *)
Inductive json :=
  | JNull
  | JBool (b : bool)
  | JInt (n : Z)
  | JFloat (m e : Z)
  | JStr (s : pystr)
  | JArr (l : list json)
  | JObj (d : gmap pystr json).

(** Truth value of a decoded value in a condition ([if not schema:]). *)
Definition json_truthy (v : json) : bool :=
  match v with
  | JNull => false
  | JBool b => b
  | JInt n => negb (n =? 0)%Z
  | JFloat m _ => negb (m =? 0)%Z
  | JStr s => truthy (Some s)
  | JArr l => match l with [] => false | _ => true end
  | JObj d => negb (bool_decide (d = ∅))
  end.

(** [v == name] for a decoded value [v] and a [str]: only an equal string
    compares equal. *)
Definition json_eq_str (name : pystr) (v : json) : bool :=
  match v with
  | JStr s => str_eqb s name
  | _ => false
  end.

Inductive role := user | assistant.

(** One turn of a conversation: [{"role": ..., "content": ...}]. *)
Record message := Message { msg_role : role; msg_content : pystr }.

(** The system instructions of the five service calls; their wording is
    not part of the pipeline. *)
Inductive system_prompt :=
  | INTERVIEW_SYSTEM_PROMPT
  | GENERATION_SYSTEM_PROMPT
  | ANALYSIS_SYSTEM_PROMPT
  | REFACTOR_SYSTEM_PROMPT
  | SCHEMA_SYSTEM_PROMPT.

(** What [ast.walk] yields, as far as [scan_tools] looks at it. *)
Record ast_node := AstNode {
  is_FunctionDef : bool;
  node_name : pystr;
  node_docstring : option pystr }.

(** A parsed module: its docstring and its nodes in [ast.walk] order. *)
Record ast_tree := AstTree {
  tree_docstring : option pystr;
  tree_walk : list ast_node }.

(** The record [scan_tools] builds for one tool file. *)
Record tool_info := ToolInfo {
  name : pystr;
  module_docstring : option pystr;
  run_docstring : option pystr;
  code : pystr }.

(** An entry of the [tools/] directory: a text file that [open] and
    [read] succeed on, or anything else (a sub-directory, bytes that are
    not UTF-8). *)
Inductive entry :=
  | File (text : pystr)
  | Unreadable.

(** The exceptions the modelled code can let escape. *)
Inductive exn :=
  | AttributeError | KeyError | TypeError | JSONDecodeError
  | EOFError | OSError | FileNotFoundError.

Inductive result (A : Type) :=
  | Return (a : A)
  | Raise (e : exn)
  | SysExit (status : nat).
Arguments Return {A} a.
Arguments Raise {A} e.
Arguments SysExit {A} status.

(** Lines the scripts print, by kind. *)
Inductive output :=
  | Err_missing_dir                       (* 错误: 目录 ... 不存在 *)
  | Err_missing_file (fname : pystr)      (* 错误: ... 中缺少 ... *)
  | Err_missing_tools_dir                 (* 错误: ... 中缺少 tools/ 目录 *)
  | Warn_syntax_error (filename : pystr)  (* 警告: ... 存在语法错误，跳过 *)
  | Msg_no_tools                          (* tools/ 目录下没有找到工具文件 *)
  | Msg_found_tools (names : list pystr)  (* 发现 n 个工具: ... *)
  | Msg_generating_schema                 (* 正在生成 Tool Use Schema... *)
  | Warn_schema_unparsed                  (* 警告: 无法解析 Claude 的 schema 输出 *)
  | Msg_schema_failed                     (* Schema 生成失败。 *)
  | Msg_schema_written                    (* 已生成: tools_schema.json *)
  | Msg_updated_manifest                  (* 已更新: manifest.json *)
  | Msg_updated_skill_md                  (* 已更新: SKILL.md *)
  | Msg_compiled                          (* 编译完成！ *)
  | Warn_analysis_unparsed                (* 警告: 无法解析 Claude 的分析结果 *)
  | Msg_tool_written (filename : pystr)   (* 已生成工具文件: ... *)
  | Msg_interview_begin                   (* === 专家访谈开始 === *)
  | Msg_interviewer (text : pystr)        (* 专家访谈官: ... *)
  | Msg_interview_auto_end                (* === 访谈自动结束 === *)
  | Msg_interview_manual_end              (* === 访谈手动结束 === *)
  | Msg_generating_documents              (* 正在根据访谈内容生成结构化文档... *)
  | Msg_documents_done                    (* 文档生成完成！ *)
  | Msg_insufficient_content.             (* 访谈内容不足，跳过文档生成。 *)

(** What a run does to the outside, in order. *)
Inductive event :=
  | Printed (o : output)
  | ServiceCall (system : system_prompt) (messages : list message).

(** The skill directory and the log of a run. A file that is absent is
    [None]; [manifest.json] and [tools_schema.json] hold the value that
    [json.dump] wrote and [json.load] reads back. *)
Record world := World {
  skill_dir_exists : bool;
  manifest_json : option json;
  SKILL_md : option pystr;
  tools_dir : option (gmap pystr entry);
  tools_schema_json : option json;
  trace : list event }.

(** The collaborators outside the repository: the generative service,
    [json.loads], [ast.parse] ([None] is a [SyntaxError]) and
    [str.lower]. *)
Record externals := Externals {
  service : system_prompt → list message → pystr;
  json_loads : pystr → option json;
  ast_parse : pystr → option ast_tree;
  lower : pystr → pystr }.

(* ===================================================================== *)
(** * Effects: a state, log and exception monad over [world] *)
(* ===================================================================== *)

Definition M (A : Type) : Type := world → world * result A.

#[global] Instance M_ret : MRet M := λ A a w, (w, Return a).

#[global] Instance M_bind : MBind M := λ A B f m w,
  match m w with
  | (w', Return a) => f a w'
  | (w', Raise e) => (w', Raise e)
  | (w', SysExit n) => (w', SysExit n)
  end.

Definition raise {A} (e : exn) : M A := λ w, (w, Raise e).

(** [sys.exit(status)] *)
Definition sys_exit {A} (status : nat) : M A := λ w, (w, SysExit status).

Definition lift {A} (r : result A) : M A := λ w, (w, r).

Definition log (ev : event) (w : world) : world :=
  World (skill_dir_exists w) (manifest_json w) (SKILL_md w) (tools_dir w)
        (tools_schema_json w) (trace w ++ [ev]).

Definition print (o : output) : M unit := λ w, (log (Printed o) w, Return ()).

(** [client.messages.create(...)] followed by [response.content[0].text] *)
Definition call_service (E : externals) (system : system_prompt)
    (messages : list message) : M pystr :=
  λ w, (log (ServiceCall system messages) w, Return (service E system messages)).

(** [json.load] of [manifest.json] *)
Definition load_manifest : M json := λ w,
  match manifest_json w with
  | Some v => (w, Return v)
  | None => (w, Raise FileNotFoundError)
  end.

(** [json.dump] into [manifest.json] *)
Definition dump_manifest (v : json) : M unit := λ w,
  (World (skill_dir_exists w) (Some v) (SKILL_md w) (tools_dir w)
         (tools_schema_json w) (trace w), Return ()).

Definition read_SKILL_md : M pystr := λ w,
  match SKILL_md w with
  | Some t => (w, Return t)
  | None => (w, Raise FileNotFoundError)
  end.

Definition write_SKILL_md (t : pystr) : M unit := λ w,
  (World (skill_dir_exists w) (manifest_json w) (Some t) (tools_dir w)
         (tools_schema_json w) (trace w), Return ()).

Definition dump_tools_schema (v : json) : M unit := λ w,
  (World (skill_dir_exists w) (manifest_json w) (SKILL_md w) (tools_dir w)
         (Some v) (trace w), Return ()).

(** [json.loads(text)] *)
Definition loads (E : externals) (text : pystr) : M json :=
  match json_loads E text with
  | Some v => mret v
  | None => raise JSONDecodeError
  end.

(* ===================================================================== *)
(** * Marker Protocol Codec *)
(* ===================================================================== *)

(** [parse_between], the same text in [scan_code.py],
    [skill_compiler.py] and [expert_interviewer.py]. *)
Definition parse_between (text start_marker end_marker : pystr)
    : option pystr :=
  match find start_marker text, find end_marker text with
  | Some start, Some end_ =>
      Some (slice (start + length start_marker) end_ text)
  | _, _ => None
  end.

(* ===================================================================== *)
(** * scan_code.py *)
(* ===================================================================== *)

Module ScanCode.

(** The end of [analyze_code], from [if not json_str:] on. *)
Definition decode_analysis (E : externals) (json_str : option pystr)
    : M json :=
  match json_str with
  | Some (c :: t) => loads E (strip (c :: t))
  | _ =>
      print Warn_analysis_unparsed;;
      mret (JObj (<[py "found" := JBool false]>
                    (<[py "functions" := JArr []]> ∅)))
  end.

Definition analyze_code (E : externals) (code : pystr) : M json :=
  result_text ← call_service E ANALYSIS_SYSTEM_PROMPT
    [Message user (py "请分析以下 Python 代码：\n\n```python\n" ++ code
                   ++ py "\n```")];
  decode_analysis E
    (parse_between result_text (py "---ANALYSIS_START---")
                   (py "---ANALYSIS_END---")).

(** [x.strip() if x else None] *)
Definition strip_if (x : option pystr) : option pystr :=
  match x with
  | Some (c :: t) => Some (strip (c :: t))
  | _ => None
  end.



Definition marker : pystr := py "## 核心能力".

(** [insert_pos] in [update_skill_md], for the heading found at [idx]:
    the next [## ] heading line, or the end of the text. *)
Definition insert_pos (content : pystr) (idx : nat) : nat :=
  let next_section := find_from (py "\n## ") content (idx + length marker) in
  match next_section with
  | Some p => p
  | None => length content
  end.

(** What [update_skill_md] does to the text it read. *)
Definition update_skill_md_content (content skill_doc : pystr) : pystr :=
  match find marker content with
  | None => content ++ py "\n## 核心能力\n" ++ skill_doc ++ py "\n"
  | Some idx =>
    let insert_pos := insert_pos content idx in
    rstrip (take insert_pos content) ++ py "\n" ++ skill_doc ++ py "\n\n"
      ++ drop insert_pos content
  end.


(** What [update_manifest] does to the decoded manifest:
    [manifest.get("tools", [])], the [not in] test and
    [manifest.setdefault("tools", []).append(func_name)]. *)
Definition update_manifest_dict (func_name : pystr) (manifest : json)
    : result json :=
  match manifest with
  | JObj d =>
    match d !! py "tools" with
    | None => Return (JObj (<[py "tools" := JArr [JStr func_name]]> d))
    | Some (JArr l) =>
        if existsb (json_eq_str func_name) l then Return manifest
        else Return (JObj (<[py "tools" := JArr (l ++ [JStr func_name])]> d))
    | Some (JStr t) =>
        if contains func_name t then Return manifest
        else Raise AttributeError
    | Some (JObj t) =>
        match t !! func_name with
        | Some _ => Return manifest
        | None => Raise AttributeError
        end
    | Some _ => Raise TypeError
    end
  | _ => Raise AttributeError
  end.

Definition update_manifest (func_name : pystr) : M unit :=
  manifest ← load_manifest;
  manifest' ← lift (update_manifest_dict func_name manifest);
  dump_manifest manifest';;
  print Msg_updated_manifest.

End ScanCode.

(* ===================================================================== *)
(** * skill_compiler.py *)
(* ===================================================================== *)

(** [s <= t] as a relation, for [sorted]. *)
Definition str_le (s t : pystr) : Prop := str_leb s t = true.

#[global] Instance str_le_dec : RelDecision str_le :=
  λ s t, decide (str_leb s t = true).

(** [sorted(names)] on a list of [str]. *)
Definition sorted (names : list pystr) : list pystr := merge_sort str_le names.

(** [os.listdir(d)]: the names of the entries, in no particular order. *)
Definition listdir (d : gmap pystr entry) : list pystr := (map_to_list d).*1.

Module SkillCompiler.

Definition validate_skill_dir : M unit := λ w,
  if negb (skill_dir_exists w) then (print Err_missing_dir;; sys_exit 1) w
  else if negb (bool_decide (is_Some (manifest_json w))) then
    (print (Err_missing_file (py "manifest.json"));; sys_exit 1) w
  else if negb (bool_decide (is_Some (SKILL_md w))) then
    (print (Err_missing_file (py "SKILL.md"));; sys_exit 1) w
  else if negb (bool_decide (is_Some (tools_dir w))) then
    (print Err_missing_tools_dir;; sys_exit 1) w
  else (w, Return ()).

Definition read_skill_md : M pystr := read_SKILL_md.

(** The loop over [ast.walk(tree)]: the docstring of the first
    [FunctionDef] named [run]. *)
Fixpoint walk_run_docstring (nodes : list ast_node) : option pystr :=
  match nodes with
  | [] => None
  | node :: rest =>
    if is_FunctionDef node && str_eqb (node_name node) (py "run")
    then node_docstring node
    else walk_run_docstring rest
  end.

(** The body of the [for filename in sorted(...)] loop of [scan_tools];
    [tools] is the list built so far. *)
Fixpoint scan_loop (E : externals) (d : gmap pystr entry)
    (filenames : list pystr) (tools : list tool_info)
    : M (list tool_info) :=
  match filenames with
  | [] => mret tools
  | filename :: rest =>
    if negb (endswith (py ".py") filename)
       || str_eqb filename (py "__init__.py")
    then scan_loop E d rest tools
    else
      match d !! filename with
      | Some (File source) =>
        let tool_name := drop_last 3 filename in
        match ast_parse E source with
        | None =>
            print (Warn_syntax_error filename);;
            scan_loop E d rest tools
        | Some tree =>
            let tool_info :=
              ToolInfo tool_name (tree_docstring tree)
                       (walk_run_docstring (tree_walk tree)) source in
            scan_loop E d rest (tools ++ [tool_info])
        end
      | _ => raise OSError
      end
  end.

Definition scan_tools (E : externals) : M (list tool_info) := λ w,
  match tools_dir w with
  | Some d => scan_loop E d (sorted (listdir d)) [] w
  | None => (w, Raise FileNotFoundError)
  end.

(** The text [generate_tool_schema] builds for one tool. *)
Definition tool_description (tool : tool_info) : pystr :=
  py "\n### 工具: " ++ name tool ++ py "\n"
  ++ (if truthy (module_docstring tool)
      then py "模块说明: " ++ default [] (module_docstring tool) ++ py "\n"
      else [])
  ++ (if truthy (run_docstring tool)
      then py "run() 说明: " ++ default [] (run_docstring tool) ++ py "\n"
      else [])
  ++ py "完整代码:\n```python\n" ++ code tool ++ py "\n```\n".

(** The end of [generate_tool_schema], from [if not json_str:] on. *)
Definition decode_schema (E : externals) (json_str : option pystr)
    : M json :=
  match json_str with
  | Some (c :: t) => loads E (strip (c :: t))
  | _ => print Warn_schema_unparsed;; mret (JArr [])
  end.

Definition generate_tool_schema (E : externals) (skill_md : pystr)
    (tools : list tool_info) : M json :=
  let tools_description := concat (map tool_description tools) in
  result_text ← call_service E SCHEMA_SYSTEM_PROMPT
    [Message user (py "以下是 SKILL.md 内容：\n\n" ++ skill_md ++ py "\n\n"
                   ++ py "以下是工具信息：\n" ++ tools_description)];
  decode_schema E
    (parse_between result_text (py "---SCHEMA_START---")
                   (py "---SCHEMA_END---")).

Definition write_schema_file (schema : json) : M unit :=
  dump_tools_schema schema;; print Msg_schema_written.

(** [manifest["tools"] = [t["name"] for t in tools]] *)
Definition update_manifest_tools_dict (tools : list tool_info)
    (manifest : json) : result json :=
  match manifest with
  | JObj d => Return (JObj (<[py "tools" := JArr (map (λ t, JStr (name t)) tools)]> d))
  | _ => Raise TypeError
  end.

Definition update_manifest_tools (tools : list tool_info) : M unit :=
  manifest ← load_manifest;
  manifest' ← lift (update_manifest_tools_dict tools manifest);
  dump_manifest manifest';;
  print Msg_updated_manifest.

Definition main (E : externals) : M unit :=
  validate_skill_dir;;
  skill_md ← read_skill_md;
  tools ← scan_tools E;
  match tools with
  | [] => print Msg_no_tools
  | _ :: _ =>
    print (Msg_found_tools (map name tools));;
    print Msg_generating_schema;;
    schema ← generate_tool_schema E skill_md tools;
    if negb (json_truthy schema) then print Msg_schema_failed
    else
      write_schema_file schema;;
      update_manifest_tools tools;;
      print Msg_compiled
  end.

End SkillCompiler.

(* ===================================================================== *)
(** * expert_interviewer.py *)
(* ===================================================================== *)

Module ExpertInterviewer.

Definition validate_skill_dir : M unit := λ w,
  if negb (skill_dir_exists w) then (print Err_missing_dir;; sys_exit 1) w
  else if negb (bool_decide (is_Some (manifest_json w))) then
    (print (Err_missing_file (py "manifest.json"));; sys_exit 1) w
  else if negb (bool_decide (is_Some (SKILL_md w))) then
    (print (Err_missing_file (py "SKILL.md"));; sys_exit 1) w
  else (w, Return ()).

(** The synthetic opening turn. *)
Definition seed : message := Message user (py "请开始访谈。").

(** The [while True] loop of [run_interview]. [inputs] are the lines
    still to come on standard input, one per call of [input]; when
    they run out [input] raises [EOFError]. *)
Fixpoint interview_loop (E : externals) (inputs : list pystr)
    (messages : list message) : M (list message) :=
  assistant_text ← call_service E INTERVIEW_SYSTEM_PROMPT
    (match messages with [] => [seed] | _ => messages end);
  let messages := messages ++ [Message assistant assistant_text] in
  let messages :=
    if (length messages =? 1)%nat then seed :: messages else messages in
  print (Msg_interviewer assistant_text);;
  if contains (py "[访谈结束]") assistant_text then
    print Msg_interview_auto_end;; mret messages
  else
    match inputs with
    | [] => raise EOFError
    | line :: rest =>
      let user_input := strip line in
      if str_eqb (lower E user_input) (py "quit")
         || str_eqb (lower E user_input) (py "exit")
      then print Msg_interview_manual_end;; mret messages
      else interview_loop E rest (messages ++ [Message user user_input])
    end.

Definition run_interview (E : externals) (inputs : list pystr)
    : M (list message) :=
  print Msg_interview_begin;;
  interview_loop E inputs [].

(** One line of the transcript sent to the service. *)
Definition transcript_line (msg : message) : pystr :=
  (match msg_role msg with user => py "专家" | assistant => py "访谈官" end)
  ++ py ": " ++ msg_content msg ++ py "\n\n".

(** Lines 127-128 of [generate_documents]: the two [updates.get]
    assignments on the decoded manifest. *)
Definition merge_manifest_updates (manifest updates : json) : result json :=
  match updates with
  | JObj u =>
    match manifest with
    | JObj m =>
      match m !! py "description" with
      | None => Raise KeyError
      | Some description =>
        let m1 := <[py "description" :=
                      default description (u !! py "description")]> m in
        match m1 !! py "tags" with
        | None => Raise KeyError
        | Some tags =>
            Return (JObj (<[py "tags" := default tags (u !! py "tags")]> m1))
        end
      end
    | _ => Raise TypeError
    end
  | _ => Raise AttributeError
  end.

(** What [generate_documents] does with the document block. *)
Definition apply_skill_md_block (skill_md : option pystr) : M unit :=
  match skill_md with
  | Some (c :: t) =>
      write_SKILL_md (strip (c :: t) ++ py "\n");;
      print Msg_updated_skill_md
  | _ => mret ()
  end.

(** What [generate_documents] does with the manifest block. *)
Definition apply_manifest_block (E : externals) (manifest_str : option pystr)
    : M unit :=
  match manifest_str with
  | Some (c :: t) =>
      manifest ← load_manifest;
      updates ← loads E (strip (c :: t));
      manifest' ← lift (merge_manifest_updates manifest updates);
      dump_manifest manifest';;
      print Msg_updated_manifest
  | _ => mret ()
  end.

Definition generate_documents (E : externals) (messages : list message)
    : M unit :=
  print Msg_generating_documents;;
  let conversation_text := concat (map transcript_line messages) in
  result_text ← call_service E GENERATION_SYSTEM_PROMPT
    [Message user (py "以下是访谈记录：\n\n" ++ conversation_text)];
  apply_skill_md_block
    (parse_between result_text (py "---SKILL_MD_START---")
                   (py "---SKILL_MD_END---"));;
  apply_manifest_block E
    (parse_between result_text (py "---MANIFEST_JSON_START---")
                   (py "---MANIFEST_JSON_END---"));;
  print Msg_documents_done.

Definition main (E : externals) (inputs : list pystr) : M unit :=
  validate_skill_dir;;
  messages ← run_interview E inputs;
  if (2 <=? length messages)%nat then generate_documents E messages
  else print Msg_insufficient_content.

End ExpertInterviewer.

(* ===================================================================== *)
(** * Vocabulary of the specification *)
(* ===================================================================== *)

Local Close Scope N_scope.

(** [sub] occurs in [s] at offset [i]. *)
Definition occurs_at (sub s : pystr) (i : nat) : Prop :=
  ∃ pre post, s = pre ++ sub ++ post ∧ length pre = i.

(** [i] is the offset of the first occurrence of [sub] in [s] at or after
    [start]. *)
Definition first_occurrence_from (sub s : pystr) (start i : nat) : Prop :=
  start ≤ i ∧ occurs_at sub s i
  ∧ ∀ j, start ≤ j → j < i → ¬ occurs_at sub s j.

Definition first_occurrence (sub s : pystr) (i : nat) : Prop :=
  first_occurrence_from sub s 0 i.

(** [sub] does not occur in [s] at or after [start]. *)
Definition absent_from (sub s : pystr) (start : nat) : Prop :=
  ∀ j, start ≤ j → ¬ occurs_at sub s j.

Definition absent (sub s : pystr) : Prop := absent_from sub s 0.

(** The whitespace a text ends with: what [rstrip] removes. *)
Definition trailing_space (s : pystr) : pystr := drop (length (rstrip s)) s.

(** The section editor read from the words of the specification (4.4): the
    insertion point is immediately before the next heading of the same or
    a higher level than the target, a level-2 heading, or the end of the
    document; the new content goes there after one blank line and nothing
    else changes; without the heading, heading and content are appended. *)
Fixpoint spec_next_heading (s : pystr) (i : nat) : nat :=
  match s with
  | [] => i
  | _ :: s' =>
    if startswith (py "\n# ") s || startswith (py "\n## ") s then i
    else spec_next_heading s' (S i)
  end.

Definition spec_insert_pos (content : pystr) (idx : nat) : nat :=
  let from := idx + length ScanCode.marker in
  spec_next_heading (drop from content) from.

Definition spec_section_edit (content new_content : pystr) : pystr :=
  match find ScanCode.marker content with
  | None =>
      content ++ py "\n" ++ ScanCode.marker ++ py "\n" ++ new_content ++ py "\n"
  | Some idx =>
      let p := spec_insert_pos content idx in
      take p content ++ py "\n\n" ++ new_content ++ drop p content
  end.

(** An edit that only inserts text: the old text split in two, with new
    text in between. *)
Definition pure_insertion (old new : pystr) : Prop :=
  ∃ before inserted after, old = before ++ after
                           ∧ new = before ++ inserted ++ after.

(** [update_manifest(skill_dir, func_name)] called [n] times in a row. *)
Fixpoint update_manifest_times (n : nat) (func_name : pystr) : M unit :=
  match n with
  | 0 => mret ()
  | S n' => ScanCode.update_manifest func_name;; update_manifest_times n' func_name
  end.

(** How often the tool name [func_name] is listed in [tools]. *)
Definition count_tool (func_name : pystr) (tools : list json) : nat :=
  length (List.filter (json_eq_str func_name) tools).

(** A world with more events in its log. *)
Definition log_all (evs : list event) (w : world) : world :=
  World (skill_dir_exists w) (manifest_json w) (SKILL_md w) (tools_dir w)
        (tools_schema_json w) (trace w ++ evs).






(** The event is the warning [scan_tools] prints for a file that does not
    parse. *)
Definition is_syntax_warning (ev : event) : Prop :=
  ∃ f, ev = Printed (Warn_syntax_error f).

(** The respondent (human) turns of a conversation beyond its first turn,
    the synthetic opening. *)
Definition respondent_turns (messages : list message) : list message :=
  List.filter (λ msg, match msg_role msg with user => true | assistant => false end)
              (drop 1 messages).

(** A computation that only adds to the log. *)
Definition grows {A} (m : M A) : Prop :=
  ∀ w w' r, m w = (w', r) → trace w `prefix_of` trace w'.

(* ===================================================================== *)
(** * Stand-ins for the collaborators, to run the model *)
(* ===================================================================== *)

(** A service that always answers [hello], a [json.loads] that rejects
    everything, an [ast.parse] that rejects the text [def] only, and a
    [lower] for text that is in lower case already. *)
Definition stub : externals :=
  Externals (λ _ _, py "hello")
            (λ _, None)
            (λ source, if str_eqb source (py "def") then None
                       else Some (AstTree (Some (py "doc")) []))
            (λ s, s).

Definition sample_tools : gmap pystr entry :=
  <[py "score.py" := File (py "x = 1")]>
    (<[py "__init__.py" := File []]>
       (<[py "broken.py" := File (py "def")]> ∅)).

Definition sample_world : world :=
  World true (Some (JObj ∅)) (Some (py "# t\n")) (Some sample_tools) None [].

(** A package whose [tools/] holds no tool that parses. *)
Definition toolless_world : world :=
  World true (Some (JObj ∅)) (Some (py "# t\n"))
        (Some (<[py "__init__.py" := File []]>
                 (<[py "broken.py" := File (py "def")]> ∅)))
        None [].

(* ===================================================================== *)
(** * Further vocabulary *)
(* ===================================================================== *)

(** [update_manifest(skill_dir, name)] called for each name of a list in
    turn, as the loop of [scan_code.main] does for the candidates it
    keeps. *)
Fixpoint register_all (names : list pystr) : M unit :=
  match names with
  | [] => mret ()
  | func_name :: rest => ScanCode.update_manifest func_name;; register_all rest
  end.

(** The [tools] list a decoded manifest stands for when a name is
    registered: the list under the key, or the empty list when the key is
    missing. *)
Definition listed_tools (d : gmap pystr json) (l : list json) : Prop :=
  d !! py "tools" = Some (JArr l) ∨ (d !! py "tools" = None ∧ l = []).

(** The two worlds hold the same files, except possibly [manifest.json]. *)
Definition same_files_but_manifest (w w' : world) : Prop :=
  skill_dir_exists w' = skill_dir_exists w
  ∧ SKILL_md w' = SKILL_md w
  ∧ tools_dir w' = tools_dir w
  ∧ tools_schema_json w' = tools_schema_json w.

(** The two worlds hold the same files. *)
Definition same_files (w w' : world) : Prop :=
  manifest_json w' = manifest_json w ∧ same_files_but_manifest w w'.

(** The calls of the generative service among the events of a log. *)
Definition service_calls (evs : list event) : list event :=
  List.filter (λ ev, match ev with ServiceCall _ _ => true | Printed _ => false end)
              evs.

(** The message list [generate_tool_schema] sends to the service. *)
Definition schema_request (skill_md : pystr) (tools : list tool_info)
    : list message :=
  [Message user (py "以下是 SKILL.md 内容：\n\n" ++ skill_md ++ py "\n\n"
                 ++ py "以下是工具信息：\n"
                 ++ concat (map SkillCompiler.tool_description tools))].

(** The schema block of a reply of the service. *)
Definition schema_block (reply : pystr) : option pystr :=
  parse_between reply (py "---SCHEMA_START---") (py "---SCHEMA_END---").

(** What [skill_compiler.validate_skill_dir] asks of the package. *)
Definition valid_for_compiler (w : world) : Prop :=
  skill_dir_exists w = true ∧ is_Some (manifest_json w)
  ∧ is_Some (SKILL_md w) ∧ is_Some (tools_dir w).

(** What [expert_interviewer.validate_skill_dir] asks of the package. *)
Definition valid_for_interviewer (w : world) : Prop :=
  skill_dir_exists w = true ∧ is_Some (manifest_json w)
  ∧ is_Some (SKILL_md w).

(** The [tools] entry that a full resync writes for a scan result. *)
Definition scanned_names (tools : list tool_info) : json :=
  JArr (map (λ t, JStr (name t)) tools).

(** The value [generate_tool_schema] decodes from a reply: the text of a
    non-empty schema block, stripped and read by [json.loads]. [None]
    when there is no such block or when it is not valid JSON. *)
Definition decoded_schema (E : externals) (reply : pystr) : option json :=
  match schema_block reply with
  | Some (c :: t) => json_loads E (strip (c :: t))
  | _ => None
  end.

(** Stand-ins with a service that answers with a schema block and a
    [json.loads] that reads it. *)
Definition stub_schema : externals :=
  Externals (λ _ _, py "---SCHEMA_START---[1]---SCHEMA_END---")
            (λ text, if str_eqb text (py "[1]") then Some (JArr [JInt 1])
                     else None)
            (ast_parse stub)
            (λ s, s).

(** The turns of a conversation after the opening one: replies of the
    service and answers of the respondent in turn, a reply first. *)
Fixpoint exchange (replies answers : list pystr) : list message :=
  match replies with
  | [] => []
  | reply :: replies' =>
    Message assistant reply
    :: match answers with
       | [] => []
       | answer :: answers' => Message user answer :: exchange replies' answers'
       end
  end.

(** The line is a cancellation token for [run_interview]. *)
Definition is_cancel (E : externals) (line : pystr) : bool :=
  str_eqb (lower E (strip line)) (py "quit")
  || str_eqb (lower E (strip line)) (py "exit").

(** The reply holds the end-of-interview sentinel. *)
Definition ends_interview (reply : pystr) : bool :=
  contains (py "[访谈结束]") reply.

(** A computation that never ends through [sys.exit]. *)
Definition never_exits {A} (m : M A) : Prop :=
  ∀ w w' r, m w = (w', r) → ∀ n, r ≠ SysExit n.

(** The list [messages] of [run_interview] at the top of the loop: empty
    before the first reply, the conversation so far afterwards. *)
Definition loop_messages (replies answers : list pystr) : list message :=
  match replies with
  | [] => []
  | _ :: _ => ExpertInterviewer.seed :: exchange replies answers
  end.

(** The message list [generate_documents] sends to the service. *)
Definition generation_request (messages : list message) : list message :=
  [Message user (py "以下是访谈记录：\n\n"
                 ++ concat (map ExpertInterviewer.transcript_line messages))].

(** The document block and the manifest block of a reply. *)
Definition doc_block (reply : pystr) : option pystr :=
  parse_between reply (py "---SKILL_MD_START---") (py "---SKILL_MD_END---").

Definition manifest_block (reply : pystr) : option pystr :=
  parse_between reply (py "---MANIFEST_JSON_START---")
                (py "---MANIFEST_JSON_END---").

(** Stand-ins with a service that answers with a document block and a
    manifest block, and a [json.loads] that reads the latter. *)
Definition stub_documents : externals :=
  Externals
    (λ _ _, py "---SKILL_MD_START---\n# t\n---SKILL_MD_END---\n---MANIFEST_JSON_START---{}---MANIFEST_JSON_END---")
    (λ text, if str_eqb text (py "{}")
             then Some (JObj (<[py "description" := JStr (py "d")]> ∅))
             else None)
    (ast_parse stub)
    (λ s, s).

(** A package as [skill_init] leaves its manifest, as far as the merges
    look at it. *)
Definition fresh_manifest : gmap pystr json :=
  <[py "description" := JStr []]>
    (<[py "tags" := JArr []]> (<[py "tools" := JArr []]> ∅)).





(* ===================================================================== *)
(** * The confirmation dialogue of scan_code.py *)
(* ===================================================================== *)

(** The lines [prompt_user_confirmation] writes; a decoded value that is
    put into a line is kept as it is. *)
Inductive dialogue_line :=
  | Out_nothing_detected        (* 未检测到适合提取的业务逻辑函数。 *)
  | Out_detected (n : nat)      (* 检测到 n 个潜在的 Professional Skill 函数： *)
  | Out_candidate (i : nat) (name line_start line_end : json)
                                (*   i. name (行 line_start-line_end) *)
  | Out_reason (reason : json)  (*      原因: reason *)
  | Out_question                (* 检测到潜在的 Professional Skill，是否... *)
  | Out_prompt                  (* 确认提取？(y/n):  *)
  | Out_cancelled.              (* 已取消。 *)

(** The terminal: the lines written so far and the lines still to come
    on standard input. *)
Record console := Console {
  written : list dialogue_line;
  stdin : list pystr }.

(** Dialogue computations: a state and exception monad over [console]. *)
Definition D (A : Type) : Type := console → console * result A.

#[global] Instance D_ret : MRet D := λ A a s, (s, Return a).

#[global] Instance D_bind : MBind D := λ A B f m s,
  match m s with
  | (s', Return a) => f a s'
  | (s', Raise e) => (s', Raise e)
  | (s', SysExit n) => (s', SysExit n)
  end.

Definition say (l : dialogue_line) : D unit := λ s,
  (Console (written s ++ [l]) (stdin s), Return ()).

(** [input(prompt)]: the prompt is written, then a line is read;
    [EOFError] when there is none. *)
Definition input_line : D pystr := λ s,
  match stdin s with
  | [] => (Console (written s ++ [Out_prompt]) [], Raise EOFError)
  | line :: rest => (Console (written s ++ [Out_prompt]) rest, Return line)
  end.

Definition lift_D {A} (r : result A) : D A := λ s, (s, r).

(** [v[key]] for a decoded value and a [str] key. *)
Definition subscript (v : json) (key : pystr) : result json :=
  match v with
  | JObj d =>
    match d !! key with
    | Some x => Return x
    | None => Raise KeyError
    end
  | _ => Raise TypeError
  end.

(** [len(v)] for a decoded value. *)
Definition py_len (v : json) : result nat :=
  match v with
  | JStr s => Return (length s)
  | JArr l => Return (length l)
  | JObj d => Return (size d)
  | _ => Raise TypeError
  end.

(** What a [for] loop over a decoded value that has a length runs
    through: the elements of a list, the characters of a string, the
    keys of an object. *)
Definition py_iter (v : json) : list json :=
  match v with
  | JArr l => l
  | JStr s => map (λ c, JStr [c]) s
  | JObj d => map JStr (map_to_list d).*1
  | _ => []
  end.

(** The [for i, func in enumerate(..., 1)] loop of
    [prompt_user_confirmation], from index [i] on. *)
Fixpoint show_candidates (i : nat) (funcs : list json) : D unit :=
  match funcs with
  | [] => mret ()
  | func :: rest =>
    name ← lift_D (subscript func (py "name"));
    line_start ← lift_D (subscript func (py "line_start"));
    line_end ← lift_D (subscript func (py "line_end"));
    say (Out_candidate i name line_start line_end);;
    reason ← lift_D (subscript func (py "reason"));
    say (Out_reason reason);;
    show_candidates (S i) rest
  end.

Definition prompt_user_confirmation (E : externals) (analysis : json)
    : D json :=
  found ← lift_D (subscript analysis (py "found"));
  if negb (json_truthy found) then
    say Out_nothing_detected;; mret (JArr [])
  else
    functions ← lift_D (subscript analysis (py "functions"));
    if negb (json_truthy functions) then
      say Out_nothing_detected;; mret (JArr [])
    else
      n ← lift_D (py_len functions);
      say (Out_detected n);;
      show_candidates 1 (py_iter functions);;
      say Out_question;;
      line ← input_line;
      if negb (str_eqb (lower E (strip line)) (py "y")) then
        say Out_cancelled;; mret (JArr [])
      else mret functions.

(** A candidate as the dialogue needs it: an object with the four keys
    that are shown. *)
Definition showable (func : json) : Prop :=
  ∃ d, func = JObj d
       ∧ is_Some (d !! py "name") ∧ is_Some (d !! py "line_start")
       ∧ is_Some (d !! py "line_end") ∧ is_Some (d !! py "reason").

(** The two lines shown for each candidate, numbered from [i]. *)
Fixpoint candidate_lines (i : nat) (funcs : list json) : list dialogue_line :=
  match funcs with
  | [] => []
  | func :: rest =>
    match subscript func (py "name"), subscript func (py "line_start"),
          subscript func (py "line_end"), subscript func (py "reason") with
    | Return n, Return a, Return b, Return r =>
        Out_candidate i n a b :: Out_reason r :: candidate_lines (S i) rest
    | _, _, _, _ => []
    end
  end.

(** The message list [analyze_code] sends to the service, and the
    analysis block of a reply. *)
Definition analysis_request (code : pystr) : list message :=
  [Message user (py "请分析以下 Python 代码：\n\n```python\n" ++ code
                 ++ py "\n```")].

Definition analysis_block (reply : pystr) : option pystr :=
  parse_between reply (py "---ANALYSIS_START---") (py "---ANALYSIS_END---").

(** An analysis that offers one candidate. *)
Definition sample_candidate : json :=
  JObj (<[py "name" := JStr (py "rate")]>
          (<[py "line_start" := JInt 1]>
             (<[py "line_end" := JInt 9]>
                (<[py "reason" := JStr (py "pricing rule")]>
                   (<[py "code" := JStr (py "x = 2")]> ∅))))).

Definition sample_functions : gmap pystr json :=
  <[py "found" := JBool true]>
    (<[py "functions" := JArr [sample_candidate]]> ∅).

(* ===================================================================== *)
(** * skill_init.py *)
(* ===================================================================== *)

(** The files of a skill package as [create_skill] writes them. *)
Record package := Package {
  pkg_manifest : json;
  pkg_SKILL_md : pystr;
  pkg_tools : gmap pystr entry;
  pkg_knowledge : gmap pystr entry }.

(** What a call of [create_skill] does: the lines it prints, the package
    it writes if any, and the value it returns. *)
Record creation := Creation {
  printed : list pystr;
  created : option package;
  returned : bool }.

Module SkillInit.

Definition MANIFEST_TEMPLATE : gmap pystr json :=
  <[py "name" := JStr []]>
    (<[py "version" := JStr (py "0.1.0")]>
       (<[py "author" := JStr []]>
          (<[py "description" := JStr []]>
             (<[py "industry" := JStr (py "finance")]>
                (<[py "tags" := JArr []]>
                   (<[py "tools" := JArr []]>
                      (<[py "knowledge" := JArr []]> ∅))))))).

(** [SKILL_MD_TEMPLATE.format(name=name)] *)
Definition SKILL_MD_TEMPLATE (name : pystr) : pystr :=
  py "# " ++ name
  ++ py "\n\n## 角色定义\n<!-- 描述该 Skill 扮演的专家角色 -->\n\n## 核心能力\n<!-- 列出该 Skill 的关键能力 -->\n\n## 决策链\n<!-- 描述专家的推理和决策流程 -->\n1.\n2.\n3.\n\n## 约束条件\n<!-- 定义该 Skill 的边界和限制 -->\n-\n\n## 输出规范\n<!-- 定义输出的格式和质量要求 -->\n".

(** Three double quotes, and one. *)
Definition triple_quote : pystr := [34; 34; 34]%N.
Definition double_quote : pystr := [34]%N.

(** [TOOL_TEMPLATE.format(tool_name=tool_name, skill_name=skill_name)] *)
Definition TOOL_TEMPLATE (tool_name skill_name : pystr) : pystr :=
  triple_quote ++ py "\nTool: " ++ tool_name ++ py "\nSkill: " ++ skill_name
  ++ py "\n" ++ triple_quote ++ py "\n\n\ndef run(" ++ py "**kwargs):\n    "
  ++ triple_quote ++ py "工具入口函数" ++ triple_quote
  ++ py "\n    raise NotImplementedError(" ++ double_quote
  ++ py "请实现该工具的具体逻辑" ++ double_quote ++ py ")\n".

(** [os.path.join(a, b)] on a POSIX system. *)
Definition join (a b : pystr) : pystr :=
  if startswith (py "/") b then b
  else match a with
       | [] => b
       | _ => if endswith (py "/") a then a ++ b else a ++ py "/" ++ b
       end.

(** [create_skill]; [path_exists] is [os.path.exists] when it is called.
    Creating the directories and writing the files is taken to succeed. *)
Definition create_skill (path_exists : pystr → bool)
    (base_dir name author industry : pystr) : creation :=
  let skill_dir := join base_dir name in
  if path_exists skill_dir then
    Creation [py "错误: 目录 '" ++ skill_dir ++ py "' 已存在"] None false
  else
    let manifest :=
      <[py "industry" := JStr industry]>
        (<[py "author" := JStr author]>
           (<[py "name" := JStr name]> MANIFEST_TEMPLATE)) in
    Creation
      [py "Skill '" ++ name ++ py "' 创建成功: " ++ skill_dir;
       py "  ├── manifest.json";
       py "  ├── SKILL.md";
       py "  ├── tools/";
       py "  │   ├── __init__.py";
       py "  │   └── example_tool.py";
       py "  └── knowledge/";
       py "      └── README.md"]
      (Some (Package
               (JObj manifest)
               (SKILL_MD_TEMPLATE name)
               (<[py "example_tool.py" :=
                    File (TOOL_TEMPLATE (py "example_tool") name)]>
                  (<[py "__init__.py" := File []]> ∅))
               (<[py "README.md" :=
                    File (py "# Knowledge\n\n将该 Skill 专用的参考文档放在此目录下（PDF、Excel、CSV 等）。\n")]>
                  ∅)))
      true.

End SkillInit.

(** The skill directory that holds a package, before any run is logged. *)
Definition package_world (p : package) : world :=
  World true (Some (pkg_manifest p)) (Some (pkg_SKILL_md p))
        (Some (pkg_tools p)) None [].

(** The fresh [SKILL.md] up to the end of its [核心能力] section, and
    from the next heading on. *)
Definition template_head (name : pystr) : pystr :=
  py "# " ++ name
  ++ py "\n\n## 角色定义\n<!-- 描述该 Skill 扮演的专家角色 -->\n\n## 核心能力\n<!-- 列出该 Skill 的关键能力 -->".

Definition template_tail : pystr :=
  py "\n## 决策链\n<!-- 描述专家的推理和决策流程 -->\n1.\n2.\n3.\n\n## 约束条件\n<!-- 定义该 Skill 的边界和限制 -->\n-\n\n## 输出规范\n<!-- 定义输出的格式和质量要求 -->\n".

(* ===================================================================== *)
(** * Python strings: facts *)
(* ===================================================================== *)

Section strings.
Implicit Types (s t sub : pystr) (i j k : nat).

Lemma str_eqb_eq s t : str_eqb s t = true ↔ s = t.
Proof.
  revert t. induction s as [|a s IH]; intros [|b t]; simpl; try easy.
  rewrite andb_true_iff, N.eqb_eq, IH. split.
  - intros [-> ->]. reflexivity.
  - intros [= -> ->]. done.
Qed.

Lemma startswith_prefix sub s : startswith sub s = true ↔ sub `prefix_of` s.
Proof.
  revert s. induction sub as [|a sub IH]; intros [|b s]; simpl.
  - split; [intros _; apply prefix_nil | done].
  - split; [intros _; apply prefix_nil | done].
  - split; [done | intros H; by apply prefix_nil_not in H].
  - rewrite andb_true_iff, N.eqb_eq, IH. split.
    + intros [-> H]. by apply prefix_cons.
    + intros H. split; [by apply prefix_cons_inv_1 in H
                       | by apply prefix_cons_inv_2 in H].
Qed.

Lemma occurs_at_prefix sub s i :
  occurs_at sub s i ↔ i ≤ length s ∧ sub `prefix_of` drop i s.
Proof.
  split.
  - intros (pre & post & -> & <-). split.
    + rewrite length_app. lia.
    + rewrite drop_app_length. by exists post.
  - intros [Hi [post Hp]]. exists (take i s), post. split.
    + by rewrite <- Hp, take_drop.
    + rewrite length_take. lia.
Qed.

Lemma occurs_at_bound sub s i :
  occurs_at sub s i → i + length sub ≤ length s.
Proof.
  intros (pre & post & -> & <-). rewrite !length_app. lia.
Qed.

(** What the scan of [find_at] returns. *)
Lemma find_at_spec sub s i :
  match find_at sub s i with
  | Some k => ∃ d, k = i + d ∧ d ≤ length s ∧ sub `prefix_of` drop d s
                   ∧ ∀ d', d' < d → ¬ sub `prefix_of` drop d' s
  | None => ∀ d, d ≤ length s → ¬ sub `prefix_of` drop d s
  end.
Proof.
  revert i. induction s as [|c s IH]; intros i; simpl.
  - destruct (startswith sub []) eqn:Hs.
    + apply startswith_prefix in Hs. exists 0.
      repeat split; [lia | lia | done | intros; lia].
    + intros d Hd Hp. assert (d = 0) as -> by (simpl in Hd; lia).
      simpl in Hp. apply startswith_prefix in Hp. congruence.
  - destruct (startswith sub (c :: s)) eqn:Hs.
    + apply startswith_prefix in Hs. exists 0.
      repeat split; [lia | lia | done | intros; lia].
    + specialize (IH (S i)). destruct (find_at sub s (S i)) as [k|].
      * destruct IH as (d & -> & Hd & Hp & Hmin). exists (S d).
        repeat split; [lia | lia | done |].
        intros [|d'] Hlt Hp'.
        -- simpl in Hp'. apply startswith_prefix in Hp'. congruence.
        -- apply (Hmin d'); [lia | done].
      * intros [|d] Hd Hp.
        -- simpl in Hp. apply startswith_prefix in Hp. congruence.
        -- apply (IH d); [simpl in Hd; lia | done].
Qed.

Lemma first_occurrence_from_unique sub s start i j :
  first_occurrence_from sub s start i →
  first_occurrence_from sub s start j → i = j.
Proof.
  intros (Hi & Oi & Mi) (Hj & Oj & Mj).
  destruct (Nat.lt_trichotomy i j) as [H|[H|H]]; [|done|].
  - by destruct (Mj i).
  - by destruct (Mi j).
Qed.

Lemma find_from_sound sub s start i :
  find_from sub s start = Some i → first_occurrence_from sub s start i.
Proof.
  unfold find_from. destruct (start <=? length s) eqn:Hle; [|done].
  apply Nat.leb_le in Hle. intros Hf.
  pose proof (find_at_spec sub (drop start s) start) as Hspec.
  rewrite Hf in Hspec. destruct Hspec as (d & -> & Hd & Hp & Hmin).
  rewrite length_drop in Hd. rewrite drop_drop in Hp.
  split; [lia|]. split.
  - apply occurs_at_prefix. split; [lia | done].
  - intros j Hj Hlt Hocc. apply occurs_at_prefix in Hocc as [_ Hocc].
    apply (Hmin (j - start)); [lia|].
    rewrite drop_drop. by replace (start + (j - start)) with j by lia.
Qed.

Lemma find_from_None sub s start :
  find_from sub s start = None ↔ absent_from sub s start.
Proof.
  unfold find_from, absent_from. split.
  - destruct (start <=? length s) eqn:Hle.
    + apply Nat.leb_le in Hle. intros Hf j Hj Hocc.
      pose proof (find_at_spec sub (drop start s) start) as Hspec.
      rewrite Hf in Hspec. apply occurs_at_prefix in Hocc as [Hjl Hocc].
      apply (Hspec (j - start)); [rewrite length_drop; lia|].
      rewrite drop_drop. by replace (start + (j - start)) with j by lia.
    + apply Nat.leb_gt in Hle. intros _ j Hj Hocc.
      apply occurs_at_prefix in Hocc as [Hjl _]. lia.
  - intros Habs. destruct (start <=? length s) eqn:Hle; [|done].
    destruct (find_at sub (drop start s) start) as [k|] eqn:Hf; [|done].
    assert (find_from sub s start = Some k) as Hff
      by (unfold find_from; by rewrite Hle).
    apply find_from_sound in Hff as (Hk & Hocc & _).
    by destruct (Habs k).
Qed.

Lemma find_from_complete sub s start i :
  first_occurrence_from sub s start i → find_from sub s start = Some i.
Proof.
  intros Hfo. destruct (find_from sub s start) as [k|] eqn:Hf.
  - f_equal. apply find_from_sound in Hf.
    eapply first_occurrence_from_unique; eauto.
  - apply find_from_None in Hf. destruct Hfo as (Hi & Hocc & _).
    by destruct (Hf i).
Qed.

Lemma find_from_Some sub s start i :
  find_from sub s start = Some i ↔ first_occurrence_from sub s start i.
Proof. split; [apply find_from_sound | apply find_from_complete]. Qed.

Lemma find_Some sub s i : find sub s = Some i ↔ first_occurrence sub s i.
Proof. apply find_from_Some. Qed.

Lemma find_None sub s : find sub s = None ↔ absent sub s.
Proof. apply find_from_None. Qed.

End strings.

(* ===================================================================== *)
(** * Marker Protocol Codec: [parse_between] *)
(* ===================================================================== *)

Section codec.
Implicit Types (text s sub sm em : pystr) (i j k n : nat).

Lemma occurs_at_drop sub s i :
  occurs_at sub s i → drop i s = sub ++ drop (i + length sub) s.
Proof.
  intros (pre & post & -> & <-).
  rewrite drop_app_length, <- drop_drop, drop_app_length.
  by rewrite drop_app_length.
Qed.

(** An occurrence only depends on the text up to its end. *)
Lemma occurs_at_window sub s i :
  occurs_at sub s i ↔
  i + length sub ≤ length s ∧ drop i (take (i + length sub) s) = sub.
Proof.
  split.
  - intros H. split; [by apply occurs_at_bound|].
    destruct H as (pre & post & -> & <-).
    rewrite take_app_add', drop_app_length by done.
    by rewrite take_app_length.
  - intros [Hlen Hsub]. apply occurs_at_prefix. split; [lia|].
    rewrite <- take_drop_commute in Hsub.
    exists (drop (length sub) (drop i s)).
    pose proof (take_drop (length sub) (drop i s)) as H.
    by rewrite Hsub in H.
Qed.

Lemma occurs_at_agree n sub s s' i :
  take n s = take n s' → i + length sub ≤ n →
  occurs_at sub s i → occurs_at sub s' i.
Proof.
  intros Heq Hn. rewrite !occurs_at_window. intros [Hlen Hsub].
  assert (take (i + length sub) s = take (i + length sub) s') as Hw.
  { rewrite <- (Nat.min_l _ _ Hn), <- !take_take. by rewrite Heq. }
  split; [|by rewrite <- Hw].
  apply (f_equal length) in Heq. rewrite !length_take in Heq. lia.
Qed.

Lemma first_occurrence_agree n sub s s' i :
  take n s = take n s' → i + length sub ≤ n →
  first_occurrence sub s i → first_occurrence sub s' i.
Proof.
  intros Heq Hn (H0 & Hocc & Hmin). split; [done|]. split.
  - by eapply occurs_at_agree.
  - intros j Hj Hlt Hocc'. apply (Hmin j Hj Hlt).
    eapply (occurs_at_agree n); [symmetry; done | lia | done].
Qed.

Lemma parse_between_found text sm em i j :
  first_occurrence sm text i → first_occurrence em text j →
  parse_between text sm em = Some (slice (i + length sm) j text).
Proof.
  intros Hi Hj. apply find_Some in Hi. apply find_Some in Hj.
  unfold parse_between. by rewrite Hi, Hj.
Qed.

Lemma parse_between_None text sm em :
  parse_between text sm em = None ↔ absent sm text ∨ absent em text.
Proof.
  unfold parse_between. rewrite <- !find_None.
  destruct (find sm text), (find em text); intuition congruence.
Qed.

(** When the end marker starts after the start marker ends, the result
    is the text between the two occurrences. *)
Lemma slice_between text sm em i j :
  occurs_at sm text i → occurs_at em text j → i + length sm ≤ j →
  text = take i text ++ sm ++ slice (i + length sm) j text ++ em
         ++ drop (j + length em) text.
Proof.
  intros Hi Hj Hle. unfold slice.
  rewrite <- (occurs_at_drop em text j Hj), drop_take_drop by done.
  rewrite <- (occurs_at_drop sm text i Hi). by rewrite take_drop.
Qed.

(** Text after both first occurrences has no influence on the result. *)
Lemma parse_between_tail text sm em i j k extra :
  first_occurrence sm text i → first_occurrence em text j →
  i + length sm ≤ k → j + length em ≤ k →
  parse_between (take k text ++ extra) sm em = parse_between text sm em.
Proof.
  intros Hi Hj Hik Hjk.
  pose proof (occurs_at_bound _ _ _ (proj1 (proj2 Hi))) as Hib.
  pose proof (occurs_at_bound _ _ _ (proj1 (proj2 Hj))) as Hjb.
  assert (∃ n, n = k `min` length text
               ∧ take n text = take n (take k text ++ extra))
    as (n & Hn & Heq).
  { exists (length (take k text)). split; [apply length_take|].
    rewrite take_app_length, length_take, <- take_take.
    by rewrite (take_ge text (length text)). }
  rewrite (parse_between_found text sm em i j) by done.
  rewrite (parse_between_found _ sm em i j).
  - f_equal. unfold slice. f_equal.
    replace j with (j `min` n) by lia.
    rewrite <- !(take_take _ j n). by rewrite Heq.
  - eapply (first_occurrence_agree n); [done | lia | done].
  - eapply (first_occurrence_agree n); [done | lia | done].
Qed.

(** C5. [parse_between] returns the text between the first occurrence of
    the start marker and the first occurrence of the end marker (the
    slice from the end of the former to the start of the latter, which
    together with the markers and the surrounding text makes up the
    input whenever the end marker starts after the start marker ends);
    it returns [None] when either marker does not occur; and whatever
    follows both first occurrences, further occurrences of the markers
    included, has no influence on the result. *)
Theorem C5_parse_between_first_occurrences text sm em :
  (∀ i j, first_occurrence sm text i → first_occurrence em text j →
      parse_between text sm em = Some (slice (i + length sm) j text)
      ∧ (i + length sm ≤ j →
           text = take i text ++ sm ++ slice (i + length sm) j text
                  ++ em ++ drop (j + length em) text)
      ∧ (∀ k extra, i + length sm ≤ k → j + length em ≤ k →
           parse_between (take k text ++ extra) sm em
           = parse_between text sm em))
  ∧ (absent sm text ∨ absent em text → parse_between text sm em = None).
Proof.
  split.
  - intros i j Hi Hj. split; [by apply parse_between_found|]. split.
    + intros Hle. apply slice_between; [apply Hi | apply Hj | done].
    + intros k extra Hik Hjk. by eapply parse_between_tail.
  - apply parse_between_None.
Qed.

Lemma C5_witness :
  parse_between (py "a<b>c<d>") (py "<") (py ">") = Some (py "b")
  ∧ parse_between (py "a<b>" ++ py "<x>>") (py "<") (py ">")
    = parse_between (py "a<b>c<d>") (py "<") (py ">")
  ∧ parse_between (py "no markers") (py "<") (py ">") = None.
Proof.
  pose proof (C5_parse_between_first_occurrences
                (py "a<b>c<d>") (py "<") (py ">")) as [Hfound _].
  destruct (Hfound 1 3) as (Hres & _ & Htail).
  { apply find_Some. reflexivity. }
  { apply find_Some. reflexivity. }
  split; [exact Hres|]. split.
  - apply (Htail 4 (py "<x>>")); vm_compute; lia.
  - apply C5_parse_between_first_occurrences. left.
    apply find_None. reflexivity.
Defined.

Lemma slice_empty a b s : b ≤ a → slice a b s = [].
Proof.
  intros Hle. unfold slice. apply drop_ge. rewrite length_take. lia.
Qed.

(** C10. When both markers occur and the first occurrence of the end
    marker ends at or before the end of the first occurrence of the
    start marker, [parse_between] returns the empty string and not
    [None]; every caller tests the result for truth, so each of them
    goes on exactly as for an absent block. *)
Theorem C10_reversed_markers_give_empty_block
    (E : externals) text sm em i j :
  first_occurrence sm text i → first_occurrence em text j →
  j + length em ≤ i + length sm →
  let block := parse_between text sm em in
  block = Some []
  ∧ block ≠ None
  ∧ truthy block = truthy None
  ∧ SkillCompiler.decode_schema E block = SkillCompiler.decode_schema E None
  ∧ ScanCode.decode_analysis E block = ScanCode.decode_analysis E None
  ∧ ScanCode.strip_if block = ScanCode.strip_if None
  ∧ ExpertInterviewer.apply_skill_md_block block
    = ExpertInterviewer.apply_skill_md_block None
  ∧ ExpertInterviewer.apply_manifest_block E block
    = ExpertInterviewer.apply_manifest_block E None.
Proof.
  intros Hi Hj Hle block.
  assert (block = Some []) as ->.
  { unfold block. rewrite (parse_between_found text sm em i j) by done.
    f_equal. apply slice_empty. lia. }
  repeat split; done.
Qed.
End codec.

(* ===================================================================== *)
(** * Document Section Editor: [update_skill_md] *)
(* ===================================================================== *)

Section rstrip.
Implicit Types (s p q : pystr) (c : N).

Lemma rstrip_decompose s :
  ∃ ws, s = rstrip s ++ ws ∧ forallb isspace ws = true.
Proof.
  induction s as [|c r (ws & Hr & Hws)]; simpl.
  - by exists [].
  - destruct (rstrip r) as [|a r'] eqn:Hrs.
    + simpl in Hr. subst ws. destruct (isspace c) eqn:Hc.
      * exists (c :: r). simpl. by rewrite Hc, Hws.
      * by exists r.
    + exists ws. split; [|done]. simpl. f_equal. exact Hr.
Qed.

Lemma rstrip_prefix s : rstrip s `prefix_of` s.
Proof. destruct (rstrip_decompose s) as (ws & H & _). by exists ws. Qed.

Lemma trailing_space_eq s ws : s = rstrip s ++ ws → trailing_space s = ws.
Proof.
  unfold trailing_space. generalize (rstrip s). intros r ->.
  apply drop_app_length.
Qed.

Lemma rstrip_trailing_space s : s = rstrip s ++ trailing_space s.
Proof.
  destruct (rstrip_decompose s) as (ws & H & _).
  by rewrite (trailing_space_eq s ws H).
Qed.

Lemma trailing_space_isspace s : forallb isspace (trailing_space s) = true.
Proof.
  destruct (rstrip_decompose s) as (ws & H & Hws).
  by rewrite (trailing_space_eq s ws H).
Qed.

Lemma length_rstrip s :
  length (rstrip s) + length (trailing_space s) = length s.
Proof.
  rewrite (rstrip_trailing_space s) at 3. by rewrite length_app.
Qed.

(** [rstrip] stops at the last character that is not white space. *)
Lemma rstrip_app_keep p c q :
  isspace c = false → rstrip (p ++ c :: q) = p ++ c :: rstrip q.
Proof.
  intros Hc. induction p as [|a p IH]; simpl.
  - rewrite Hc. by destruct (rstrip q).
  - rewrite IH. by destruct p.
Qed.

Lemma rstrip_last s c : last (rstrip s) = Some c → isspace c = false.
Proof.
  induction s as [|a r IH]; simpl; [done|].
  destruct (rstrip r) as [|b r'] eqn:Hr.
  - destruct (isspace a) eqn:Ha; simpl; [done|]. by intros [= <-].
  - intros H. apply IH. exact H.
Qed.

Lemma trailing_space_app_keep p c q :
  isspace c = false → trailing_space (p ++ c :: q) = trailing_space q.
Proof.
  intros Hc. apply trailing_space_eq.
  rewrite (rstrip_app_keep p c q Hc), <- app_assoc. simpl.
  by rewrite <- rstrip_trailing_space.
Qed.

Lemma rstrip_app_keep_word p m c q :
  isspace c = false →
  rstrip (p ++ (m ++ [c]) ++ q) = p ++ (m ++ [c]) ++ rstrip q
  ∧ trailing_space (p ++ (m ++ [c]) ++ q) = trailing_space q.
Proof.
  intros Hc.
  replace (p ++ (m ++ [c]) ++ q) with ((p ++ m) ++ c :: q)
    by (by rewrite <- !app_assoc).
  rewrite rstrip_app_keep, trailing_space_app_keep by done.
  by rewrite <- !app_assoc.
Qed.
End rstrip.

Section editor.
Import ScanCode.
Implicit Types (content doc : pystr) (idx ip : nat).

(** The heading ends with a character that is not white space. *)
Lemma marker_last :
  marker = [35; 35; 32; 26680; 24515; 33021]%N ++ [21147%N]
  ∧ isspace 21147%N = false.
Proof. split; reflexivity. Qed.

(** The insertion point is the first [## ] heading line after the
    heading found at [idx], or the end of the text. *)
Lemma insert_pos_spec content idx :
  first_occurrence_from (py "\n## ") content (idx + length marker)
                        (insert_pos content idx)
  ∨ (absent_from (py "\n## ") content (idx + length marker)
     ∧ insert_pos content idx = length content).
Proof.
  unfold insert_pos.
  destruct (find_from (py "\n## ") content (idx + length marker)) as [p|] eqn:Hf.
  - left. by apply find_from_Some.
  - right. split; [by apply find_from_None | done].
Qed.

Lemma insert_pos_bounds content idx :
  occurs_at marker content idx →
  idx + length marker ≤ insert_pos content idx ≤ length content.
Proof.
  intros Hocc. apply occurs_at_bound in Hocc.
  destruct (insert_pos_spec content idx) as [(Hle & Hp & _)|[_ ->]].
  - apply occurs_at_bound in Hp. lia.
  - lia.
Qed.

(** Stripping the text before the insertion point never reaches the
    heading. *)
Lemma rstrip_before_insert_pos content idx ip :
  occurs_at marker content idx →
  idx + length marker ≤ ip → ip ≤ length content →
  rstrip (take ip content)
  = take (idx + length marker) content
    ++ rstrip (slice (idx + length marker) ip content)
  ∧ trailing_space (take ip content)
    = trailing_space (slice (idx + length marker) ip content).
Proof.
  intros Hocc Hh Hip. unfold slice.
  set (h := idx + length marker) in *.
  assert (take ip content = take h content ++ drop h (take ip content)) as ->.
  { rewrite <- (take_drop h (take ip content)) at 1.
    rewrite take_take. by replace (h `min` ip) with h by lia. }
  assert (take h content = take idx content ++ marker) as ->.
  { destruct Hocc as (pre & post & -> & <-). unfold h.
    rewrite take_app_add', take_app_length by done.
    by rewrite take_app_length. }
  assert (length (take idx content ++ marker) = h) as Hlen.
  { rewrite length_app, length_take. apply occurs_at_bound in Hocc.
    unfold h. lia. }
  rewrite !(drop_app_length' _ _ h) by done.
  destruct marker_last as [-> Hsp].
  rewrite <- !(app_assoc (take idx content)).
  apply rstrip_app_keep_word, Hsp.
Qed.

Lemma update_found content doc idx :
  first_occurrence marker content idx →
  update_skill_md_content content doc
  = rstrip (take (insert_pos content idx) content) ++ py "\n" ++ doc
    ++ py "\n\n" ++ drop (insert_pos content idx) content.
Proof.
  intros Hi. apply find_Some in Hi.
  unfold update_skill_md_content. by rewrite Hi.
Qed.

Lemma update_absent content doc :
  absent marker content →
  update_skill_md_content content doc
  = content ++ py "\n## 核心能力\n" ++ doc ++ py "\n".
Proof.
  intros Hi. apply find_None in Hi.
  unfold update_skill_md_content. by rewrite Hi.
Qed.

(** The shape of an edit below an existing heading. *)
Lemma edit_frame content doc idx :
  first_occurrence marker content idx →
  let before := take (insert_pos content idx) content in
  content = rstrip before ++ trailing_space before
            ++ drop (insert_pos content idx) content
  ∧ update_skill_md_content content doc
    = rstrip before ++ (py "\n" ++ doc ++ py "\n\n")
      ++ drop (insert_pos content idx) content
  ∧ take (idx + length marker) content `prefix_of` rstrip before.
Proof.
  intros Hi before.
  pose proof (insert_pos_bounds content idx (proj1 (proj2 Hi))) as [Hh Hip].
  split; [|split].
  - rewrite app_assoc, <- rstrip_trailing_space. unfold before.
    by rewrite take_drop.
  - rewrite (update_found content doc idx Hi). by rewrite <- !app_assoc.
  - unfold before.
    destruct (rstrip_before_insert_pos content idx (insert_pos content idx))
      as [-> _]; [apply Hi | done | done |]. by eexists.
Qed.

(** C2 (amended). The edit leaves every byte unchanged except the run of
    white space that ends at the insertion point, which it removes:
    the text from the insertion point on is kept as it is, the text
    before it is kept up to its last character that is not white space,
    which is never before the end of the target heading, and the new
    content with its line feeds goes in between. When the heading is
    absent the old text is kept whole and the new block follows it. *)
Theorem C2_edit_keeps_all_but_trailing_space content doc :
  (absent marker content →
     ∃ block, update_skill_md_content content doc = content ++ block)
  ∧ (∀ idx, first_occurrence marker content idx →
       let ip := insert_pos content idx in
       let before := take ip content in
       content = rstrip before ++ trailing_space before ++ drop ip content
       ∧ update_skill_md_content content doc
         = rstrip before ++ (py "\n" ++ doc ++ py "\n\n") ++ drop ip content
       ∧ forallb isspace (trailing_space before) = true
       ∧ take (idx + length marker) content `prefix_of` rstrip before
       ∧ (trailing_space before = [] →
            pure_insertion content (update_skill_md_content content doc))).
Proof.
  split.
  - intros Habs. rewrite update_absent by done. eauto.
  - intros idx Hi ip before.
    pose proof (insert_pos_bounds content idx (proj1 (proj2 Hi))) as [Hh Hip].
    assert (content = rstrip before ++ trailing_space before
                      ++ drop ip content) as Hcontent.
    { rewrite app_assoc, <- rstrip_trailing_space. unfold before.
      by rewrite take_drop. }
    assert (update_skill_md_content content doc
            = rstrip before ++ (py "\n" ++ doc ++ py "\n\n")
              ++ drop ip content) as Hupd.
    { rewrite (update_found content doc idx Hi). by rewrite <- !app_assoc. }
    split; [done|]. split; [done|].
    split; [apply trailing_space_isspace|]. split.
    + unfold before.
      destruct (rstrip_before_insert_pos content idx ip) as [-> _];
        [apply Hi | done | done |]. by eexists.
    + intros Hnil. rewrite Hnil in Hcontent. simpl in Hcontent.
      exists (rstrip before), (py "\n" ++ doc ++ py "\n\n"),
             (drop ip content). done.
Qed.

Lemma C2_witness :
  update_skill_md_content (marker ++ py "\nfoo  \n## Next\nbar\n") (py "x")
  = marker ++ py "\nfoo" ++ (py "\n" ++ py "x" ++ py "\n\n")
    ++ py "\n## Next\nbar\n"
  ∧ ∃ block, update_skill_md_content (py "# title\n") (py "x")
             = py "# title\n" ++ block.
Proof.
  split.
  - pose proof (C2_edit_keeps_all_but_trailing_space
                  (marker ++ py "\nfoo  \n## Next\nbar\n") (py "x"))
      as [_ Hfound].
    destruct (Hfound 0) as (_ & Hupd & _).
    { apply find_Some. reflexivity. }
    exact Hupd.
  - apply C2_edit_keeps_all_but_trailing_space.
    apply find_None. reflexivity.
Defined.

(** An edit that only inserts never lowers the number of occurrences of
    a character. *)
Lemma pure_insertion_count old new (c : N) :
  pure_insertion old new →
  length (filter (λ x, x = c) old) ≤ length (filter (λ x, x = c) new).
Proof.
  intros (before & inserted & after & -> & ->).
  rewrite !filter_app, !length_app. lia.
Qed.

(** C2, as stated, fails: with two spaces at the end of the last line of
    the section, the edit removes them, so it is not an insertion. *)
Lemma C2_counterexample :
  let content := marker ++ py "\nfoo  \n## Next\nbar\n" in
  update_skill_md_content content (py "x")
  = marker ++ py "\nfoo\nx\n\n\n## Next\nbar\n"
  ∧ ¬ pure_insertion content (update_skill_md_content content (py "x")).
Proof.
  split; [reflexivity|].
  intros H. apply (pure_insertion_count _ _ 32%N) in H.
  vm_compute in H. lia.
Qed.

(** C4 (amended). When the document has the heading, the insertion
    point is the start of the first line after it that begins with
    [## ] (the line feed before it), or the end of the document when
    there is none; the text before the insertion point is kept up to
    its last character that is not white space, the new content follows
    it after one line feed and is followed by two line feeds and the
    rest of the document. When the heading is absent, a line feed, the
    heading, a line feed, the new content and a line feed are appended
    to the document. *)
Theorem C4_insertion_point_and_separators content doc :
  (absent marker content →
     update_skill_md_content content doc
     = content ++ py "\n" ++ marker ++ py "\n" ++ doc ++ py "\n")
  ∧ (∀ idx, first_occurrence marker content idx →
       ∃ ip,
         (first_occurrence_from (py "\n## ") content
                                (idx + length marker) ip
          ∨ (absent_from (py "\n## ") content (idx + length marker)
             ∧ ip = length content))
         ∧ update_skill_md_content content doc
           = rstrip (take ip content) ++ py "\n" ++ doc ++ py "\n\n"
             ++ drop ip content
         ∧ ∃ c, last (rstrip (take ip content)) = Some c
                ∧ isspace c = false).
Proof.
  split.
  - intros Habs. by rewrite update_absent.
  - intros idx Hi. exists (insert_pos content idx).
    split; [apply insert_pos_spec|]. split; [by apply update_found|].
    pose proof (insert_pos_bounds content idx (proj1 (proj2 Hi))) as [Hh Hip].
    destruct (rstrip_before_insert_pos content idx (insert_pos content idx))
      as [Hr _]; [apply Hi | done | done |].
    destruct (last (rstrip (take (insert_pos content idx) content)))
      as [c|] eqn:Hlast.
    + exists c. split; [done|]. by eapply rstrip_last.
    + apply last_None in Hlast. rewrite Hlast in Hr.
      apply (f_equal length) in Hr. rewrite length_app, length_take in Hr.
      simpl in Hr. change (length marker) with 7 in *. lia.
Qed.

Lemma C4_witness :
  update_skill_md_content (py "# t\n\n" ++ marker ++ py "\na\n\n## Next\n")
                          (py "x")
  = py "# t\n\n" ++ marker ++ py "\na" ++ py "\n" ++ py "x" ++ py "\n\n"
    ++ py "\n## Next\n"
  ∧ update_skill_md_content (py "# t\n") (py "x")
    = py "# t\n" ++ py "\n" ++ marker ++ py "\n" ++ py "x" ++ py "\n".
Proof.
  split.
  - pose proof (C4_insertion_point_and_separators
                  (py "# t\n\n" ++ marker ++ py "\na\n\n## Next\n") (py "x"))
      as [_ Hfound].
    destruct (Hfound 5) as (ip & Hip & Hupd & _).
    { apply find_Some. reflexivity. }
    assert (ip = 15) as ->.
    { destruct Hip as [Hip|[Habs _]].
      - apply find_from_Some in Hip. vm_compute in Hip. congruence.
      - apply find_from_None in Habs. vm_compute in Habs. congruence. }
    exact Hupd.
  - apply C4_insertion_point_and_separators.
    apply find_None. reflexivity.
Defined.

(** C4, as stated, fails: the new content starts on the line right
    after the prior content, with no blank line between them, and a
    heading of a higher level does not stop the search for the
    insertion point. *)
Lemma C4_counterexample :
  update_skill_md_content (marker ++ py "\nfoo\n## Next\n") (py "x")
  = marker ++ py "\nfoo\nx\n\n\n## Next\n"
  ∧ spec_section_edit (marker ++ py "\nfoo\n## Next\n") (py "x")
    = marker ++ py "\nfoo\n\nx\n## Next\n"
  ∧ update_skill_md_content (marker ++ py "\nfoo\n# Top\nbar") (py "x")
    = marker ++ py "\nfoo\n# Top\nbar\nx\n\n"
  ∧ spec_section_edit (marker ++ py "\nfoo\n# Top\nbar") (py "x")
    = marker ++ py "\nfoo\n\nx\n# Top\nbar"
  ∧ update_skill_md_content (marker ++ py "\nfoo\n## Next\n") (py "x")
    ≠ spec_section_edit (marker ++ py "\nfoo\n## Next\n") (py "x")
  ∧ update_skill_md_content (marker ++ py "\nfoo\n# Top\nbar") (py "x")
    ≠ spec_section_edit (marker ++ py "\nfoo\n# Top\nbar") (py "x").
Proof. repeat split; try reflexivity; vm_compute; congruence. Qed.

(** C7 (amended). On a document that has the heading, the edit changes
    the length by the length of the new content plus three line feeds,
    minus the white space it removes before the insertion point. The
    document gets strictly longer whenever that run of white space is
    shorter than the new content plus three, so for every non-empty
    content when the run has at most three characters. *)
Theorem C7_edit_length content doc idx :
  first_occurrence marker content idx →
  let removed := trailing_space (take (insert_pos content idx) content) in
  length (update_skill_md_content content doc) + length removed
  = length content + length doc + 3
  ∧ (length removed < length doc + 3 →
       length content < length (update_skill_md_content content doc))
  ∧ (doc ≠ [] → length removed ≤ 3 →
       length content < length (update_skill_md_content content doc)).
Proof.
  intros Hi removed.
  assert (length (update_skill_md_content content doc) + length removed
          = length content + length doc + 3) as Hlen.
  { destruct (edit_frame content doc idx Hi) as (Hc & Hu & _).
    apply (f_equal length) in Hc. apply (f_equal length) in Hu.
    rewrite !length_app in Hc. rewrite !length_app in Hu.
    change (length (py "\n")) with 1 in Hu.
    change (length (py "\n\n")) with 2 in Hu.
    unfold removed. lia. }
  split; [done|]. split; [lia|].
  intros Hdoc Hrem. destruct doc; [done|]. simpl in *. lia.
Qed.

Lemma C7_witness :
  length (marker ++ py "\nfoo\n\n## Next\n")
  < length (update_skill_md_content (marker ++ py "\nfoo\n\n## Next\n")
                                    (py "x")).
Proof.
  destruct (C7_edit_length (marker ++ py "\nfoo\n\n## Next\n") (py "x") 0)
    as (_ & Hgrow & _).
  { apply find_Some. reflexivity. }
  apply Hgrow. vm_compute. lia.
Defined.

(** C7, as stated, fails: after six line feeds at the end of the
    section, adding a one-character content makes the document
    shorter. *)
Lemma C7_counterexample :
  let content := marker ++ py "\n\n\n\n\n\n" in
  find marker content = Some 0
  ∧ py "x" ≠ []
  ∧ update_skill_md_content content (py "x") = marker ++ py "\nx\n\n"
  ∧ length (update_skill_md_content content (py "x")) < length content.
Proof. repeat split; try reflexivity; vm_compute; (congruence || lia). Qed.
End editor.

(* ===================================================================== *)
(** * Manifest Merge Engine *)
(* ===================================================================== *)

Section manifest.
Import ScanCode ExpertInterviewer.
Implicit Types (d m u : gmap pystr json) (l : list json) (T : pystr).

Lemma json_eq_str_eq T v : json_eq_str T v = true ↔ v = JStr T.
Proof.
  destruct v; simpl; try (split; [discriminate | congruence]).
  rewrite str_eqb_eq. split; [by intros -> | by intros [= ->]].
Qed.

Lemma existsb_json_eq_str T l :
  existsb (json_eq_str T) l = true ↔ JStr T ∈ l.
Proof.
  rewrite existsb_exists, list_elem_of_In. split.
  - intros (v & Hin & Hv). apply json_eq_str_eq in Hv. by subst.
  - intros Hin. exists (JStr T). split; [done | by apply json_eq_str_eq].
Qed.

Lemma count_tool_app T l1 l2 :
  count_tool T (l1 ++ l2) = count_tool T l1 + count_tool T l2.
Proof. unfold count_tool. by rewrite List.filter_app, length_app. Qed.

Lemma count_tool_absent T l : JStr T ∉ l → count_tool T l = 0.
Proof.
  unfold count_tool. induction l as [|v l IH]; [done|].
  rewrite not_elem_of_cons. intros [Hne Hnin]. simpl.
  destruct (json_eq_str T v) eqn:Hv.
  - apply json_eq_str_eq in Hv. congruence.
  - by apply IH.
Qed.

Lemma count_tool_NoDup T l : NoDup l → JStr T ∈ l → count_tool T l = 1.
Proof.
  induction 1 as [|v l Hnin Hnd IH]; [by intros ?%elem_of_nil|].
  rewrite elem_of_cons. unfold count_tool. simpl.
  destruct (json_eq_str T v) eqn:Hv.
  - apply json_eq_str_eq in Hv. subst v. intros _. simpl. f_equal.
    by apply count_tool_absent.
  - intros [Heq|Hin]; [|by apply IH]. subst v.
    assert (json_eq_str T (JStr T) = true) by by apply json_eq_str_eq.
    congruence.
Qed.

(** C1 (amended). In the merge of the decoded update record into the
    manifest, [description] and [tags] are replaced by the value of the
    update record whenever the record has the key, whatever the value
    is, an empty one included; the existing value is kept only when the
    record has no such key. No other field changes. *)
Theorem C1_overwrite_when_key_present m u description tags :
  m !! py "description" = Some description →
  m !! py "tags" = Some tags →
  ∃ m', merge_manifest_updates (JObj m) (JObj u) = Return (JObj m')
        ∧ m' !! py "description"
          = Some (default description (u !! py "description"))
        ∧ m' !! py "tags" = Some (default tags (u !! py "tags"))
        ∧ ∀ k, k ≠ py "description" → k ≠ py "tags" → m' !! k = m !! k.
Proof.
  intros Hd Ht. unfold merge_manifest_updates. rewrite Hd.
  rewrite lookup_insert_ne by done. rewrite Ht.
  eexists. split; [reflexivity|]. split; [|split].
  - rewrite lookup_insert_ne by done. by rewrite lookup_insert_eq.
  - by rewrite lookup_insert_eq.
  - intros k Hk1 Hk2. by rewrite !lookup_insert_ne.
Qed.

Lemma C1_witness :
  ∃ m', merge_manifest_updates
          (JObj (<[py "description" := JStr (py "old")]>
                   (<[py "tags" := JArr [JStr (py "a")]]> ∅)))
          (JObj (<[py "description" := JStr (py "new")]> ∅))
        = Return (JObj m')
        ∧ m' !! py "description" = Some (JStr (py "new"))
        ∧ m' !! py "tags" = Some (JArr [JStr (py "a")]).
Proof.
  destruct (C1_overwrite_when_key_present
              (<[py "description" := JStr (py "old")]>
                 (<[py "tags" := JArr [JStr (py "a")]]> ∅))
              (<[py "description" := JStr (py "new")]> ∅)
              (JStr (py "old")) (JArr [JStr (py "a")]))
    as (m' & Hm & Hd & Ht & _).
  - reflexivity.
  - reflexivity.
  - exists m'. split; [exact Hm|]. split; [exact Hd | exact Ht].
Defined.

(** C1, as stated, fails: an update record that supplies an empty
    description and an empty tag list replaces the existing values. *)
Lemma C1_counterexample :
  let manifest := <[py "description" := JStr (py "old")]>
                    (<[py "tags" := JArr [JStr (py "a")]]> ∅) in
  let updates := <[py "description" := JStr []]>
                   (<[py "tags" := JArr []]> ∅) in
  merge_manifest_updates (JObj manifest) (JObj updates)
  = Return (JObj updates)
  ∧ updates !! py "description" = Some (JStr [])
  ∧ updates !! py "description" ≠ manifest !! py "description"
  ∧ updates !! py "tags" = Some (JArr [])
  ∧ updates !! py "tags" ≠ manifest !! py "tags".
Proof. repeat split; try reflexivity; vm_compute; congruence. Qed.

(** One call of [update_manifest] on a manifest with a [tools] list. *)
Lemma update_manifest_step T w d l :
  manifest_json w = Some (JObj d) → d !! py "tools" = Some (JArr l) →
  ∃ w', update_manifest T w = (w', Return ())
        ∧ manifest_json w'
          = Some (JObj (<[py "tools" :=
                            JArr (if existsb (json_eq_str T) l then l
                                  else l ++ [JStr T])]> d)).
Proof.
  intros Hw Hd.
  unfold update_manifest, mbind, M_bind, load_manifest, lift.
  rewrite Hw. simpl. rewrite Hd.
  destruct (existsb (json_eq_str T) l); simpl.
  - eexists. split; [reflexivity|]. simpl. by rewrite insert_id.
  - eexists. split; [reflexivity|]. done.
Qed.

(** Once the name is listed, further calls leave the manifest as it
    is. *)
Lemma update_manifest_times_listed n T w d l :
  manifest_json w = Some (JObj d) → d !! py "tools" = Some (JArr l) →
  existsb (json_eq_str T) l = true →
  ∃ w', update_manifest_times n T w = (w', Return ())
        ∧ manifest_json w' = Some (JObj d).
Proof.
  revert w. induction n as [|n IH]; intros w Hw Hd Hin; simpl.
  - by exists w.
  - destruct (update_manifest_step T w d l Hw Hd) as (w1 & Hstep & Hw1).
    rewrite Hin, insert_id in Hw1 by done.
    destruct (IH w1 Hw1 Hd Hin) as (w' & Hrest & Hw').
    exists w'. split; [|done].
    unfold mbind, M_bind. by rewrite Hstep.
Qed.

(** C6. On a manifest whose [tools] list has no duplicates, calling the
    append-if-absent merge for a tool name once or more leaves a
    [tools] list that holds the name exactly once and starts with the
    old list, entries and order unchanged; the outcome is the same for
    every number of calls, and no other field of the manifest
    changes. *)
Theorem C6_append_if_absent_idempotent n T w d l :
  manifest_json w = Some (JObj d) → d !! py "tools" = Some (JArr l) →
  NoDup l → 1 ≤ n →
  ∃ w' l',
    update_manifest_times n T w = (w', Return ())
    ∧ manifest_json w' = Some (JObj (<[py "tools" := JArr l']> d))
    ∧ l' = (if existsb (json_eq_str T) l then l else l ++ [JStr T])
    ∧ count_tool T l' = 1
    ∧ l `prefix_of` l'
    ∧ NoDup l'.
Proof.
  intros Hw Hd Hnd Hn. destruct n as [|n]; [lia|]. simpl.
  destruct (update_manifest_step T w d l Hw Hd) as (w1 & Hstep & Hw1).
  set (l' := if existsb (json_eq_str T) l then l else l ++ [JStr T]) in *.
  assert (count_tool T l' = 1 ∧ l `prefix_of` l' ∧ NoDup l') as (Hc & Hp & Hnd').
  { unfold l'. destruct (existsb (json_eq_str T) l) eqn:Hin.
    - apply existsb_json_eq_str in Hin. split; [by apply count_tool_NoDup|].
      done.
    - assert (JStr T ∉ l) as Hnin.
      { intros Hin'. apply existsb_json_eq_str in Hin'. congruence. }
      split; [|split].
      + rewrite count_tool_app, count_tool_absent by done.
        unfold count_tool. simpl.
        by rewrite (proj2 (str_eqb_eq T T) eq_refl).
      + by apply prefix_app_r.
      + apply NoDup_app. split; [done|]. split.
        * intros x Hx ->%list_elem_of_singleton. done.
        * apply NoDup_singleton. }
  assert (existsb (json_eq_str T) l' = true) as Hin'.
  { apply existsb_json_eq_str. destruct (decide (count_tool T l' = 0)) as [H0|H0];
      [lia|]. destruct (existsb (json_eq_str T) l') eqn:He.
    - by apply existsb_json_eq_str.
    - exfalso. apply H0, count_tool_absent. intros Hx.
      apply existsb_json_eq_str in Hx. congruence. }
  destruct (update_manifest_times_listed n T w1 _ l' Hw1) as (w' & Hrest & Hw');
    [by rewrite lookup_insert_eq | done |].
  exists w', l'. split; [|done].
  unfold mbind, M_bind. by rewrite Hstep.
Qed.

Lemma C6_witness :
  ∃ w' l',
    update_manifest_times 3 (py "score")
      (World true (Some (JObj (<[py "tools" := JArr [JStr (py "rate")]]> ∅)))
             None None None [])
    = (w', Return ())
    ∧ manifest_json w' = Some (JObj (<[py "tools" := JArr l']> ∅))
    ∧ l' = [JStr (py "rate"); JStr (py "score")].
Proof.
  destruct (C6_append_if_absent_idempotent 3 (py "score")
              (World true
                 (Some (JObj (<[py "tools" := JArr [JStr (py "rate")]]> ∅)))
                 None None None [])
              (<[py "tools" := JArr [JStr (py "rate")]]> ∅)
              [JStr (py "rate")])
    as (w' & l' & Hrun & Hm & Hl & _).
  - reflexivity.
  - reflexivity.
  - apply NoDup_singleton.
  - lia.
  - exists w', l'. split; [exact Hrun|]. split.
    + rewrite Hm. by rewrite insert_insert_eq.
    + exact Hl.
Defined.
End manifest.

(* ===================================================================== *)
(** * Static Tool Scanner: [scan_tools] *)
(* ===================================================================== *)

Section order.
Implicit Types (s t u : pystr).

Lemma str_leb_total s t : str_leb s t = true ∨ str_leb t s = true.
Proof.
  revert t. induction s as [|a s IH]; intros [|b t]; simpl; auto.
  destruct (N.lt_trichotomy a b) as [H|[->|H]].
  - left. apply N.ltb_lt in H. by rewrite H.
  - rewrite N.eqb_refl, N.ltb_irrefl. simpl. apply IH.
  - right. apply N.ltb_lt in H. by rewrite H.
Qed.

Lemma str_leb_trans s t u :
  str_leb s t = true → str_leb t u = true → str_leb s u = true.
Proof.
  revert t u. induction s as [|a s IH]; intros [|b t] [|c u]; simpl; try done.
  rewrite !orb_true_iff, !andb_true_iff, !N.ltb_lt, !N.eqb_eq.
  intros [Hab|[-> Hst]] [Hbc|[-> Htu]].
  - left. lia.
  - by left.
  - by left.
  - right. split; [done|]. by eapply IH.
Qed.

#[local] Instance str_le_total : Total str_le.
Proof. intros s t. apply str_leb_total. Qed.

#[local] Instance str_le_trans : Transitive str_le.
Proof. intros s t u. apply str_leb_trans. Qed.


End order.

Section scanner.
Import SkillCompiler.
Variable E : externals.
Implicit Types (d : gmap pystr entry) (names : list pystr) (f : pystr).

Lemma log_all_nil w : log_all [] w = w.
Proof. destruct w. unfold log_all. simpl. by rewrite app_nil_r. Qed.

Lemma log_all_cons ev evs w : log_all evs (log ev w) = log_all (ev :: evs) w.
Proof. unfold log_all, log. simpl. by rewrite <- app_assoc. Qed.








End scanner.

(* ===================================================================== *)
(** * Schema compilation: [skill_compiler.main] *)
(* ===================================================================== *)

Section compiler.
Import SkillCompiler.
Variable E : externals.

(** Whatever its outcome, the scan only adds syntax warnings to the
    log. *)
Lemma scan_loop_log d names tools w w1 r :
  scan_loop E d names tools w = (w1, r) →
  ∃ warnings, w1 = log_all warnings w ∧ Forall is_syntax_warning warnings.
Proof.
  revert tools w. induction names as [|f rest IH]; intros tools w; simpl.
  - intros [= <- _]. exists []. by rewrite log_all_nil.
  - destruct (negb (endswith (py ".py") f) || str_eqb f (py "__init__.py"));
      [apply IH|].
    destruct (d !! f) as [[source|]|].
    + destruct (ast_parse E source) as [tree|]; [apply IH|].
      unfold mbind, M_bind, print. intros Hloop.
      apply IH in Hloop as (warnings & -> & Hall).
      exists (Printed (Warn_syntax_error f) :: warnings).
      split; [by rewrite log_all_cons|].
      constructor; [by exists f | done].
    + intros [= <- _]. exists []. by rewrite log_all_nil.
    + intros [= <- _]. exists []. by rewrite log_all_nil.
Qed.

Lemma scan_tools_log w w1 r :
  scan_tools E w = (w1, r) →
  ∃ warnings, w1 = log_all warnings w ∧ Forall is_syntax_warning warnings.
Proof.
  unfold scan_tools. destruct (tools_dir w) as [d|].
  - apply scan_loop_log.
  - intros [= <- _]. exists []. by rewrite log_all_nil.
Qed.

(** C8. When the scan of the tools directory returns no tool, [main]
    prints that no tool was found and returns: the generative service
    is not called, [tools_schema.json] is not written, and the manifest
    and every other file are left as they were. The log only gets the
    syntax warnings of the scan and the report. *)
Theorem C8_no_tools_no_compilation w w1 :
  skill_dir_exists w = true →
  is_Some (manifest_json w) → is_Some (SKILL_md w) →
  scan_tools E w = (w1, Return []) →
  ∃ w' warnings,
    main E w = (w', Return ())
    ∧ trace w' = trace w ++ warnings ++ [Printed Msg_no_tools]
    ∧ Forall is_syntax_warning warnings
    ∧ (∀ system messages, ServiceCall system messages ∉ warnings
                              ++ [Printed Msg_no_tools])
    ∧ tools_schema_json w' = tools_schema_json w
    ∧ manifest_json w' = manifest_json w
    ∧ SKILL_md w' = SKILL_md w
    ∧ tools_dir w' = tools_dir w.
Proof.
  intros Hdir Hm Hs Hscan.
  assert (is_Some (tools_dir w)) as Ht.
  { unfold scan_tools in Hscan. by destruct (tools_dir w). }
  destruct (scan_tools_log w w1 _ Hscan) as (warnings & -> & Hall).
  exists (log (Printed Msg_no_tools) (log_all warnings w)), warnings.
  split; [|split; [|split; [|split]]].
  - unfold main, mbind, M_bind, validate_skill_dir.
    rewrite Hdir. simpl.
    rewrite !(bool_decide_eq_true_2 _) by done. simpl.
    unfold read_skill_md, read_SKILL_md. destruct Hs as [t ->].
    by rewrite Hscan.
  - simpl. by rewrite <- app_assoc.
  - done.
  - intros system messages Hin. apply elem_of_app in Hin as [Hin|Hin].
    + rewrite Forall_forall in Hall. by destruct (Hall _ Hin).
    + by apply list_elem_of_singleton in Hin.
  - done.
Qed.
End compiler.

(* ===================================================================== *)
(** * Conversational extraction: [run_interview] and [main] *)
(* ===================================================================== *)

Section interview.
Import ExpertInterviewer.
Variable E : externals.
Implicit Types (inputs : list pystr) (messages : list message).

(** Every conversation the loop returns has the opening turn and one
    reply, at least. *)
Lemma interview_loop_length inputs messages w w' result :
  interview_loop E inputs messages w = (w', Return result) →
  2 ≤ length result.
Proof.
  revert messages w.
  induction inputs as [|line rest IH]; intros messages w; simpl;
    unfold mbind, M_bind, call_service, print; simpl;
    set (reply := service E INTERVIEW_SYSTEM_PROMPT
                    match messages with [] => [seed] | _ :: _ => messages end);
    set (turns := if (length (messages ++ [Message assistant reply]) =? 1)%nat
                  then seed :: messages ++ [Message assistant reply]
                  else messages ++ [Message assistant reply]);
    assert (2 ≤ length turns) as Hturns
      by (unfold turns; destruct messages as [|m [|m' ms]]; simpl;
          rewrite ?length_app; simpl; lia);
    destruct (contains (py "[访谈结束]") reply).
  - by intros [= _ <-].
  - done.
  - by intros [= _ <-].
  - destruct (str_eqb (lower E (strip line)) (py "quit")
              || str_eqb (lower E (strip line)) (py "exit")).
    + by intros [= _ <-].
    + apply IH.
Qed.

(** The branch of [main] that skips document generation is never
    taken: whenever the interview returns, [main] goes on with
    [generate_documents]. *)
Lemma main_generates_whenever_interview_returns inputs w w1 messages :
  validate_skill_dir w = (w, Return ()) →
  run_interview E inputs w = (w1, Return messages) →
  main E inputs w = generate_documents E messages w1.
Proof.
  intros Hv Hrun. unfold main, mbind, M_bind. rewrite Hv, Hrun.
  unfold run_interview, mbind, M_bind, print in Hrun.
  apply interview_loop_length in Hrun.
  by rewrite (proj2 (Nat.leb_le _ _) Hrun).
Qed.

Lemma bind_print {A} o (k : M A) w :
  (print o;; k) w = k (log (Printed o) w).
Proof. reflexivity. Qed.

Lemma bind_call_service {A} system transcript (k : pystr → M A) w :
  (call_service E system transcript ≫= k) w
  = k (service E system transcript) (log (ServiceCall system transcript) w).
Proof. reflexivity. Qed.

Lemma grows_bind {A B} (m : M A) (k : A → M B) :
  grows m → (∀ a, grows (k a)) → grows (m ≫= k).
Proof.
  intros Hm Hk w w' r. unfold mbind, M_bind.
  destruct (m w) as [w1 [a|e|n]] eqn:Hmw.
  - intros Hkw. etrans; [by eapply Hm | by eapply Hk].
  - intros [= <- _]. by eapply Hm.
  - intros [= <- _]. by eapply Hm.
Qed.

Lemma grows_same {A} (m : M A) :
  (∀ w, trace (m w).1 = trace w) → grows m.
Proof.
  intros H w w' r Hm. specialize (H w). rewrite Hm in H. simpl in H.
  by rewrite H.
Qed.

Lemma grows_print o : grows (print o).
Proof. intros w w' r [= <- _]. simpl. by apply prefix_app_r. Qed.

Lemma grows_apply_skill_md_block block : grows (apply_skill_md_block block).
Proof.
  destruct block as [[|c t]|]; try (by apply grows_same).
  apply grows_bind; [by apply grows_same | intros; apply grows_print].
Qed.

Lemma grows_apply_manifest_block block :
  grows (apply_manifest_block E block).
Proof.
  destruct block as [[|c t]|]; try (by apply grows_same).
  apply grows_bind.
  { apply grows_same. intros w. unfold load_manifest.
    by destruct (manifest_json w). }
  intros manifest. apply grows_bind.
  { apply grows_same. intros w. unfold loads.
    by destruct (json_loads E _). }
  intros updates. apply grows_bind; [by apply grows_same|].
  intros manifest'. apply grows_bind; [by apply grows_same|].
  intros; apply grows_print.
Qed.

(** [generate_documents] calls the generative service. *)
Lemma generate_documents_calls_service messages w :
  ∃ transcript,
    ServiceCall GENERATION_SYSTEM_PROMPT transcript
    ∈ trace (generate_documents E messages w).1.
Proof.
  unfold generate_documents. rewrite bind_print, bind_call_service.
  eexists.
  match goal with |- _ ∈ trace (?k ?w1).1 =>
    destruct (k w1) as [w' r] eqn:Hk;
    assert (trace w1 `prefix_of` trace w') as [evs Hevs]
  end.
  { revert Hk. apply grows_bind; [apply grows_apply_skill_md_block|].
    intros _. apply grows_bind; [apply grows_apply_manifest_block|].
    intros _. apply grows_print. }
  simpl. rewrite Hevs. simpl.
  apply elem_of_app. left. apply elem_of_app. right.
  apply list_elem_of_singleton. reflexivity.
Qed.

(** C3 (the code at the failing input). When the first reply of the
    service does not end the interview and the respondent's first line
    is the cancellation token, the interview returns the opening turn
    and that reply only, no respondent turn, and [main] still runs
    document generation on it. *)
Theorem C3_cancelled_interview_is_compiled w answer rest :
  validate_skill_dir w = (w, Return ()) →
  contains (py "[访谈结束]") (service E INTERVIEW_SYSTEM_PROMPT [seed]) = false →
  str_eqb (lower E (strip answer)) (py "quit")
  || str_eqb (lower E (strip answer)) (py "exit") = true →
  let messages :=
    [seed; Message assistant (service E INTERVIEW_SYSTEM_PROMPT [seed])] in
  ∃ w1,
    run_interview E (answer :: rest) w = (w1, Return messages)
    ∧ respondent_turns messages = []
    ∧ main E (answer :: rest) w = generate_documents E messages w1
    ∧ ∃ transcript,
        ServiceCall GENERATION_SYSTEM_PROMPT transcript
        ∈ trace (main E (answer :: rest) w).1.
Proof.
  intros Hv Hgo Hquit messages.
  assert (∃ w1, run_interview E (answer :: rest) w = (w1, Return messages))
    as [w1 Hrun].
  { unfold run_interview. simpl.
    unfold mbind, M_bind, call_service, print. simpl.
    rewrite Hgo, Hquit. by eexists. }
  exists w1. split; [done|]. split; [done|].
  pose proof (main_generates_whenever_interview_returns _ _ _ _ Hv Hrun)
    as Hmain.
  split; [done|]. rewrite Hmain. apply generate_documents_calls_service.
Qed.
End interview.

(* ===================================================================== *)
(** * The theorems at concrete inputs *)
(* ===================================================================== *)

(** Scanning [score.py], [__init__.py] and a file that does not parse
    gives the one tool [score] and one warning. *)
Example scan_sample :
  SkillCompiler.scan_tools stub sample_world
  = (log (Printed (Warn_syntax_error (py "broken.py"))) sample_world,
     Return [ToolInfo (py "score") (Some (py "doc")) None (py "x = 1")]).
Proof. reflexivity. Qed.


Lemma C8_witness :
  ∃ w' warnings,
    SkillCompiler.main stub toolless_world = (w', Return ())
    ∧ trace w' = trace toolless_world ++ warnings ++ [Printed Msg_no_tools]
    ∧ tools_schema_json w' = None
    ∧ manifest_json w' = Some (JObj ∅).
Proof.
  destruct (C8_no_tools_no_compilation stub toolless_world
              (log (Printed (Warn_syntax_error (py "broken.py")))
                   toolless_world))
    as (w' & warnings & Hmain & Htrace & _ & _ & Hschema & Hmanifest & _).
  - reflexivity.
  - by eexists.
  - by eexists.
  - reflexivity.
  - exists w', warnings.
    split; [exact Hmain|]. split; [exact Htrace|].
    split; [exact Hschema | exact Hmanifest].
Defined.

Lemma C10_witness :
  parse_between (py "---SCHEMA_END------SCHEMA_START---")
                (py "---SCHEMA_START---") (py "---SCHEMA_END---")
  = Some []
  ∧ SkillCompiler.decode_schema stub
      (parse_between (py "---SCHEMA_END------SCHEMA_START---")
                     (py "---SCHEMA_START---") (py "---SCHEMA_END---"))
    = SkillCompiler.decode_schema stub None.
Proof.
  destruct (C10_reversed_markers_give_empty_block stub
              (py "---SCHEMA_END------SCHEMA_START---")
              (py "---SCHEMA_START---") (py "---SCHEMA_END---") 16 0)
    as (Hblock & _ & _ & Hschema & _).
  - apply find_Some. reflexivity.
  - apply find_Some. reflexivity.
  - vm_compute. lia.
  - split; [exact Hblock | exact Hschema].
Defined.

Lemma C3_witness :
  ∃ w1,
    ExpertInterviewer.run_interview stub [py "quit"] sample_world
    = (w1, Return [ExpertInterviewer.seed; Message assistant (py "hello")])
    ∧ ExpertInterviewer.main stub [py "quit"] sample_world
      = ExpertInterviewer.generate_documents stub
          [ExpertInterviewer.seed; Message assistant (py "hello")] w1.
Proof.
  destruct (C3_cancelled_interview_is_compiled stub sample_world
              (py "quit") [])
    as (w1 & Hrun & _ & Hmain & _).
  - reflexivity.
  - reflexivity.
  - reflexivity.
  - exists w1. split; [exact Hrun | exact Hmain].
Defined.

(** The same run, evaluated: the log of [main] after a cancelled
    interview holds the call of the service for document generation, and
    not the report of insufficient content. *)
Example cancelled_interview_trace :
  trace (ExpertInterviewer.main stub [py "quit"] sample_world).1
  = [Printed Msg_interview_begin;
     ServiceCall INTERVIEW_SYSTEM_PROMPT [ExpertInterviewer.seed];
     Printed (Msg_interviewer (py "hello"));
     Printed Msg_interview_manual_end;
     Printed Msg_generating_documents;
     ServiceCall GENERATION_SYSTEM_PROMPT
       [Message user (py "以下是访谈记录：\n\n专家: 请开始访谈。\n\n访谈官: hello\n\n")];
     Printed Msg_documents_done].
Proof. reflexivity. Qed.

Example literal_marker :
  py "## 核心能力" = [35; 35; 32; 26680; 24515; 33021; 21147]%N.
Proof. reflexivity. Qed.

Example literal_newline : py "\n## " = [10; 35; 35; 32]%N.
Proof. reflexivity. Qed.

(* ===================================================================== *)
(** * Further properties of the manifest merges *)
(* ===================================================================== *)

Section manifest_more.
Import ScanCode SkillCompiler.
Implicit Types (d : gmap pystr json) (l : list json) (T : pystr).

Lemma same_files_refl w : same_files w w.
Proof. by repeat split. Qed.

Lemma same_files_log_all evs w : same_files w (log_all evs w).
Proof. by repeat split. Qed.

(** One call of [update_manifest] on a manifest without [tools] key. *)
Lemma update_manifest_step_missing T w d :
  manifest_json w = Some (JObj d) → d !! py "tools" = None →
  ∃ w', update_manifest T w = (w', Return ())
        ∧ manifest_json w' = Some (JObj (<[py "tools" := JArr [JStr T]]> d))
        ∧ same_files_but_manifest w w'.
Proof.
  intros Hw Hd.
  unfold update_manifest, mbind, M_bind, load_manifest, lift.
  rewrite Hw. simpl. rewrite Hd. simpl.
  eexists. split; [reflexivity|]. by repeat split.
Qed.

Lemma update_manifest_step_frame T w d l :
  manifest_json w = Some (JObj d) → d !! py "tools" = Some (JArr l) →
  ∃ w', update_manifest T w = (w', Return ())
        ∧ manifest_json w'
          = Some (JObj (<[py "tools" :=
                            JArr (if existsb (json_eq_str T) l then l
                                  else l ++ [JStr T])]> d))
        ∧ same_files_but_manifest w w'.
Proof.
  intros Hw Hd.
  unfold update_manifest, mbind, M_bind, load_manifest, lift.
  rewrite Hw. simpl. rewrite Hd.
  destruct (existsb (json_eq_str T) l); simpl.
  - eexists. split; [reflexivity|]. simpl. rewrite insert_id by done.
    by repeat split.
  - eexists. split; [reflexivity|]. by repeat split.
Qed.

Lemma register_all_listed names w d l :
  manifest_json w = Some (JObj d) → d !! py "tools" = Some (JArr l) →
  ∃ w' l',
    register_all names w = (w', Return ())
    ∧ manifest_json w' = Some (JObj (<[py "tools" := JArr l']> d))
    ∧ l `prefix_of` l'
    ∧ (NoDup l → NoDup l')
    ∧ (∀ v, v ∈ l' ↔ v ∈ l ∨ ∃ n, n ∈ names ∧ v = JStr n)
    ∧ same_files_but_manifest w w'.
Proof.
  revert w d l. induction names as [|n rest IH]; intros w d l Hw Hd.
  - exists w, l. simpl. rewrite insert_id by done.
    repeat split; try done.
    + by left.
    + intros [?|(n & Hn & _)]; [done | by apply elem_of_nil in Hn].
  - destruct (update_manifest_step_frame n w d l Hw Hd)
      as (w1 & Hstep & Hw1 & Hf1).
    set (l1 := if existsb (json_eq_str n) l then l else l ++ [JStr n]) in *.
    assert (l `prefix_of` l1 ∧ (NoDup l → NoDup l1)
            ∧ ∀ v, v ∈ l1 ↔ v ∈ l ∨ v = JStr n) as (Hp1 & Hnd1 & Hin1).
    { unfold l1. destruct (existsb (json_eq_str n) l) eqn:Hex.
      - apply existsb_json_eq_str in Hex. repeat split; try done.
        + by left.
        + by intros [?| ->].
      - assert (JStr n ∉ l) as Hnin.
        { intros Hin. apply existsb_json_eq_str in Hin. congruence. }
        split; [by apply prefix_app_r|]. split.
        + intros Hnd. apply NoDup_app. split; [done|]. split.
          * intros x Hx ->%list_elem_of_singleton. done.
          * apply NoDup_singleton.
        + intros v. rewrite elem_of_app, list_elem_of_singleton. done. }
    destruct (IH w1 (<[py "tools" := JArr l1]> d) l1 Hw1)
      as (w' & l' & Hrest & Hw' & Hp & Hnd & Hin & Hf);
      [by rewrite lookup_insert_eq|].
    exists w', l'. split; [|split; [|split; [|split; [|split]]]].
    + simpl. unfold mbind, M_bind. by rewrite Hstep.
    + by rewrite Hw', insert_insert_eq.
    + by etrans.
    + auto.
    + intros v. rewrite Hin, Hin1. split.
      * intros [[?| ->]|(m & Hm & ->)].
        -- by left.
        -- right. exists n. split; [by left | done].
        -- right. exists m. split; [by right | done].
      * intros [?|(m & Hm & ->)]; [by left; left|].
        apply elem_of_cons in Hm as [->|Hm]; [by left; right|].
        right. by exists m.
    + destruct Hf1 as (? & ? & ? & ?), Hf as (? & ? & ? & ?).
      repeat split; congruence.
Qed.

(** X1. Registering any non-empty sequence of tool names, on a manifest
    whose [tools] is a list or is missing, leaves a [tools] list that
    starts with the old list, holds exactly the old entries and the
    registered names, and has no duplicates when the old list had none;
    no other manifest field and no other file changes. *)
Theorem register_all_keeps_tools_a_set n rest w d l :
  manifest_json w = Some (JObj d) → listed_tools d l →
  ∃ w' l',
    register_all (n :: rest) w = (w', Return ())
    ∧ manifest_json w' = Some (JObj (<[py "tools" := JArr l']> d))
    ∧ l `prefix_of` l'
    ∧ (NoDup l → NoDup l')
    ∧ (∀ v, v ∈ l' ↔ v ∈ l ∨ ∃ m, m ∈ n :: rest ∧ v = JStr m)
    ∧ same_files_but_manifest w w'.
Proof.
  intros Hw [Hd|[Hd ->]].
  - by apply register_all_listed.
  - destruct (update_manifest_step_missing n w d Hw Hd)
      as (w1 & Hstep & Hw1 & Hf1).
    destruct (register_all_listed rest w1 (<[py "tools" := JArr [JStr n]]> d)
                [JStr n] Hw1)
      as (w' & l' & Hrest & Hw' & Hp & Hnd & Hin & Hf);
      [by rewrite lookup_insert_eq|].
    exists w', l'. split; [|split; [|split; [|split; [|split]]]].
    + simpl. unfold mbind, M_bind. by rewrite Hstep.
    + by rewrite Hw', insert_insert_eq.
    + apply prefix_nil.
    + intros _. apply Hnd, NoDup_singleton.
    + intros v. rewrite Hin, list_elem_of_singleton. split.
      * intros [->|(m & Hm & ->)]; right.
        -- exists n. split; [by left | done].
        -- exists m. split; [by right | done].
      * intros [Hv|(m & Hm & ->)]; [by apply elem_of_nil in Hv|].
        apply elem_of_cons in Hm as [->|Hm]; [by left|].
        right. by exists m.
    + destruct Hf1 as (? & ? & ? & ?), Hf as (? & ? & ? & ?).
      repeat split; congruence.
Qed.

Lemma register_all_keeps_tools_a_set_witness :
  ∃ w' l',
    register_all [py "b"; py "a"; py "b"]
      (World true (Some (JObj (<[py "tools" := JArr [JStr (py "a")]]> ∅)))
             None None None [])
    = (w', Return ())
    ∧ manifest_json w' = Some (JObj (<[py "tools" := JArr l']> ∅))
    ∧ NoDup l'.
Proof.
  destruct (register_all_keeps_tools_a_set (py "b") [py "a"; py "b"]
              (World true
                 (Some (JObj (<[py "tools" := JArr [JStr (py "a")]]> ∅)))
                 None None None [])
              (<[py "tools" := JArr [JStr (py "a")]]> ∅) [JStr (py "a")])
    as (w' & l' & Hrun & Hm & _ & Hnd & _).
  - reflexivity.
  - by left.
  - exists w', l'. split; [exact Hrun|]. split.
    + rewrite Hm. by rewrite insert_insert_eq.
    + apply Hnd, NoDup_singleton.
Defined.

(** X. A call of [update_manifest] is all or nothing: when it raises,
    nothing at all has changed; when it returns, it has printed its one
    line and the manifest is still an object that differs from the old
    one in [tools] at most. In both cases no other file changes. *)
Theorem update_manifest_all_or_nothing T w :
  let w' := (update_manifest T w).1 in
  let r := (update_manifest T w).2 in
  same_files_but_manifest w w'
  ∧ (r ≠ Return () → w' = w)
  ∧ (r = Return () →
       trace w' = trace w ++ [Printed Msg_updated_manifest]
       ∧ ∃ d d', manifest_json w = Some (JObj d)
                 ∧ manifest_json w' = Some (JObj d')
                 ∧ ∀ k, k ≠ py "tools" → d' !! k = d !! k).
Proof.
  unfold update_manifest, mbind, M_bind, load_manifest, lift, dump_manifest,
    print.
  destruct (manifest_json w) as [manifest|] eqn:Hm;
    [|by repeat split].
  destruct manifest as [| | | | | |d]; simpl; try by repeat split.
  assert (∀ v, ∀ k, k ≠ py "tools" → <[py "tools" := v]> d !! k = d !! k)
    as Hframe by (intros; by apply lookup_insert_ne).
  destruct (d !! py "tools") as [[| | | |t|l|t]|] eqn:Hd; simpl;
    try by repeat split.
  - destruct (contains T t); simpl; [|by repeat split].
    split; [by repeat split|]. split; [done|]. intros _.
    split; [done|]. by exists d, d.
  - destruct (existsb (json_eq_str T) l); simpl;
      (split; [by repeat split|]); (split; [done|]); intros _;
      (split; [done|]).
    + by exists d, d.
    + eexists d, _. split; [done|]. split; [done|]. apply Hframe.
  - destruct (t !! T); simpl; [|by repeat split].
    split; [by repeat split|]. split; [done|]. intros _.
    split; [done|]. by exists d, d.
  - split; [by repeat split|]. split; [done|]. intros _.
    split; [done|]. eexists d, _. split; [done|]. split; [done|]. apply Hframe.
Qed.

(** One call of [update_manifest_tools] on a manifest that is an
    object. *)
Lemma update_manifest_tools_step ts w d :
  manifest_json w = Some (JObj d) →
  ∃ w', update_manifest_tools ts w = (w', Return ())
        ∧ manifest_json w'
          = Some (JObj (<[py "tools" := scanned_names ts]> d))
        ∧ same_files_but_manifest w w'.
Proof.
  intros Hw.
  unfold update_manifest_tools, mbind, M_bind, load_manifest, lift.
  rewrite Hw. simpl. eexists. split; [reflexivity|]. by repeat split.
Qed.

(** X. The full resync forgets what was registered before: after a call
    of [update_manifest] that returned, [update_manifest_tools] leaves
    the same manifest as it would have without that call, the old
    manifest with [tools] replaced by the names of the scanned tools; and
    a second resync with the same scan changes nothing more. *)
Theorem resync_discards_registrations T ts w w1 d :
  manifest_json w = Some (JObj d) →
  update_manifest T w = (w1, Return ()) →
  ∃ w2 w3,
    update_manifest_tools ts w1 = (w2, Return ())
    ∧ manifest_json w2 = Some (JObj (<[py "tools" := scanned_names ts]> d))
    ∧ manifest_json (update_manifest_tools ts w).1 = manifest_json w2
    ∧ update_manifest_tools ts w2 = (w3, Return ())
    ∧ manifest_json w3 = manifest_json w2.
Proof.
  intros Hw Hreg.
  assert (∃ d1, manifest_json w1 = Some (JObj d1)
                ∧ <[py "tools" := scanned_names ts]> d1
                  = <[py "tools" := scanned_names ts]> d) as (d1 & Hw1 & Hd1).
  { revert Hreg.
    unfold update_manifest, mbind, M_bind, load_manifest, lift, dump_manifest,
      print. rewrite Hw. simpl.
    destruct (d !! py "tools") as [[| | | |t|l|t]|]; simpl; try done.
    - destruct (contains T t); simpl; [|done].
      intros [= <-]. by exists d.
    - destruct (existsb (json_eq_str T) l); simpl; intros [= <-].
      + by exists d.
      + eexists. split; [done|]. by rewrite insert_insert_eq.
    - destruct (t !! T); simpl; [|done]. intros [= <-]. by exists d.
    - intros [= <-]. eexists. split; [done|]. by rewrite insert_insert_eq. }
  destruct (update_manifest_tools_step ts w1 d1 Hw1) as (w2 & Hrun2 & Hw2 & _).
  destruct (update_manifest_tools_step ts w d Hw) as (w0 & Hrun0 & Hw0 & _).
  destruct (update_manifest_tools_step ts w2 _ Hw2) as (w3 & Hrun3 & Hw3 & _).
  exists w2, w3. rewrite Hd1 in Hw2.
  split; [done|]. split; [done|].
  split; [rewrite Hrun0; simpl; by rewrite Hw0, Hw2|].
  split; [done|]. by rewrite Hw3, Hw2, Hd1, insert_insert_eq.
Qed.

Lemma resync_discards_registrations_witness :
  ∃ w2,
    update_manifest_tools [ToolInfo (py "score") None None []]
      (update_manifest (py "rate")
         (World true (Some (JObj ∅)) None None None [])).1
    = (w2, Return ())
    ∧ manifest_json w2
      = Some (JObj (<[py "tools" := JArr [JStr (py "score")]]> ∅)).
Proof.
  destruct (resync_discards_registrations (py "rate")
              [ToolInfo (py "score") None None []]
              (World true (Some (JObj ∅)) None None None [])
              (update_manifest (py "rate")
                 (World true (Some (JObj ∅)) None None None [])).1
              ∅)
    as (w2 & w3 & Hrun & Hm & _).
  - reflexivity.
  - reflexivity.
  - exists w2. split; [exact Hrun | exact Hm].
Defined.
End manifest_more.

(* ===================================================================== *)
(** * Further properties of [skill_compiler.py] *)
(* ===================================================================== *)

Section compiler_more.
Import SkillCompiler.
Variable E : externals.
Implicit Types (w : world) (d : gmap pystr json).

Lemma compiler_validate_cases w :
  (valid_for_compiler w ∧ validate_skill_dir w = (w, Return ()))
  ∨ (¬ valid_for_compiler w
     ∧ ∃ o, validate_skill_dir w = (log (Printed o) w, SysExit 1)).
Proof.
  unfold valid_for_compiler, validate_skill_dir.
  destruct (skill_dir_exists w); simpl;
    [|right; split; [intros (? & _); done | by eexists]].
  destruct (manifest_json w); simpl;
    [|right; split; [intros (_ & [? ?] & _); done | by eexists]].
  destruct (SKILL_md w); simpl;
    [|right; split; [intros (_ & _ & [? ?] & _); done | by eexists]].
  destruct (tools_dir w); simpl;
    [|right; split; [intros (_ & _ & _ & [? ?]); done | by eexists]].
  left. by repeat split.
Qed.

Lemma generate_tool_schema_eq skill_md tools w :
  generate_tool_schema E skill_md tools w
  = decode_schema E
      (schema_block (service E SCHEMA_SYSTEM_PROMPT
                             (schema_request skill_md tools)))
      (log (ServiceCall SCHEMA_SYSTEM_PROMPT (schema_request skill_md tools)) w).
Proof. reflexivity. Qed.

(** [main] after a successful validation and a scan that found tools. *)
Lemma main_after_scan w w1 skill_md t ts :
  valid_for_compiler w → SKILL_md w = Some skill_md →
  scan_tools E w = (w1, Return (t :: ts)) →
  main E w
  = (schema ← generate_tool_schema E skill_md (t :: ts);
     if negb (json_truthy schema) then print Msg_schema_failed
     else write_schema_file schema;;
          update_manifest_tools (t :: ts);;
          print Msg_compiled)
      (log (Printed Msg_generating_schema)
           (log (Printed (Msg_found_tools (map name (t :: ts)))) w1)).
Proof.
  intros Hv Hs Hscan.
  destruct (compiler_validate_cases w) as [[_ Hval]|[Hnv _]]; [|done].
  unfold main. unfold mbind at 1, M_bind at 1. rewrite Hval.
  unfold mbind at 1, M_bind at 1.
  unfold read_skill_md, read_SKILL_md. rewrite Hs.
  unfold mbind at 1, M_bind at 1. rewrite Hscan.
  reflexivity.
Qed.

Lemma service_calls_app evs1 evs2 :
  service_calls (evs1 ++ evs2) = service_calls evs1 ++ service_calls evs2.
Proof. apply List.filter_app. Qed.

Lemma service_calls_warnings warnings :
  Forall is_syntax_warning warnings → service_calls warnings = [].
Proof.
  induction 1 as [|ev evs [f ->] _ IH]; [done|]. simpl. exact IH.
Qed.

Lemma scan_loop_no_exit (d : gmap pystr entry) names tools w w1 r :
  scan_loop E d names tools w = (w1, r) → ∀ n, r ≠ SysExit n.
Proof.
  revert tools w. induction names as [|f rest IH]; intros tools w; simpl.
  - by intros [= _ <-].
  - destruct (negb (endswith (py ".py") f) || str_eqb f (py "__init__.py"));
      [apply IH|].
    destruct (d !! f) as [[source|]|].
    + destruct (ast_parse E source) as [tree|]; [apply IH|].
      unfold mbind, M_bind, print. apply IH.
    + by intros [= _ <-].
    + by intros [= _ <-].
Qed.

Lemma scan_tools_no_exit w w1 r :
  scan_tools E w = (w1, r) → ∀ n, r ≠ SysExit n.
Proof.
  unfold scan_tools. destruct (tools_dir w) as [d|].
  - apply scan_loop_no_exit.
  - by intros [= _ <-].
Qed.

(** [main] after a successful validation. *)
Lemma main_valid w skill_md :
  valid_for_compiler w → SKILL_md w = Some skill_md →
  main E w
  = (tools ← scan_tools E;
     match tools with
     | [] => print Msg_no_tools
     | _ :: _ =>
       print (Msg_found_tools (map name tools));;
       print Msg_generating_schema;;
       schema ← generate_tool_schema E skill_md tools;
       if negb (json_truthy schema) then print Msg_schema_failed
       else
         write_schema_file schema;;
         update_manifest_tools tools;;
         print Msg_compiled
     end) w.
Proof.
  intros Hv Hs.
  destruct (compiler_validate_cases w) as [[_ Hval]|[Hnv _]]; [|done].
  unfold main. unfold mbind at 1, M_bind at 1. rewrite Hval.
  unfold mbind at 1, M_bind at 1.
  unfold read_skill_md, read_SKILL_md. by rewrite Hs.
Qed.
Ltac trace_goal Hall :=
  eexists; split;
  [ simpl; rewrite <- ?app_assoc; reflexivity
  | rewrite ?service_calls_app, ?Hall; simpl; lia ].

(** What a run of [main] can do, in all its outcomes. *)
Lemma compiler_main_effect w w' r :
  main E w = (w', r) →
  (skill_dir_exists w' = skill_dir_exists w ∧ SKILL_md w' = SKILL_md w
   ∧ tools_dir w' = tools_dir w)
  ∧ (∃ evs, trace w' = trace w ++ evs ∧ length (service_calls evs) ≤ 1)
  ∧ (tools_schema_json w' = tools_schema_json w
     ∨ ∃ schema, tools_schema_json w' = Some schema
                 ∧ json_truthy schema = true)
  ∧ (manifest_json w' = manifest_json w
     ∨ r = Return ()
       ∧ ∃ schema, tools_schema_json w' = Some schema
                   ∧ json_truthy schema = true)
  ∧ (¬ valid_for_compiler w →
       ∃ o, w' = log (Printed o) w ∧ r = SysExit 1)
  ∧ (valid_for_compiler w → ∀ n, r ≠ SysExit n).
Proof.
  intros Hmain.
  destruct (compiler_validate_cases w) as [[Hv Hval]|[Hnv [o Hval]]].
  2: { unfold main in Hmain. unfold mbind at 1, M_bind at 1 in Hmain.
       rewrite Hval in Hmain. injection Hmain as <- <-.
       split; [done|].
       split; [exists [Printed o]; split; [done | simpl; lia]|].
       split; [by left|]. split; [by left|].
       split; [by exists o | done]. }
  assert (∃ skill_md, SKILL_md w = Some skill_md) as [skill_md Hs]
    by (destruct Hv as (_ & _ & [s Hs] & _); by exists s).
  rewrite (main_valid w skill_md Hv Hs) in Hmain.
  unfold mbind at 1, M_bind at 1 in Hmain.
  destruct (scan_tools E w) as [w1 r1] eqn:Hscan.
  pose proof (scan_tools_no_exit w w1 r1 Hscan) as Hnoexit.
  destruct (scan_tools_log E w w1 r1 Hscan) as (warnings & -> & Hall).
  apply service_calls_warnings in Hall.
  destruct r1 as [[|t ts]|e|n]; [| | |by destruct (Hnoexit n)].
  - injection Hmain as <- <-. simpl.
    split; [done|]. split.
    { exists (warnings ++ [Printed Msg_no_tools]).
      rewrite app_assoc. split; [done|].
      rewrite service_calls_app, Hall. simpl. lia. }
    split; [by left|]. split; [by left|]. split; [done|]. done.
  - rewrite !bind_print in Hmain.
    unfold mbind at 1, M_bind at 1 in Hmain.
    rewrite generate_tool_schema_eq in Hmain.
    set (request := schema_request skill_md (t :: ts)) in *.
    destruct (schema_block (service E SCHEMA_SYSTEM_PROMPT request))
      as [[|c block]|]; simpl in Hmain.
    + unfold print in Hmain. injection Hmain as <- <-. simpl.
      split; [done|]. split; [trace_goal Hall|].
      split; [by left|]. split; [by left|]. done.
    + unfold loads in Hmain.
      destruct (json_loads E (strip (c :: block))) as [schema|];
        simpl in Hmain.
      * destruct (json_truthy schema) eqn:Htruthy; simpl in Hmain.
        -- assert (∃ m, manifest_json w = Some m) as [m Hm]
             by (destruct Hv as (_ & [m Hm] & _); by exists m).
           unfold write_schema_file, update_manifest_tools, mbind, M_bind,
             dump_tools_schema, load_manifest, lift, dump_manifest, print
             in Hmain.
           simpl in Hmain. rewrite Hm in Hmain.
           destruct m; simpl in Hmain; injection Hmain as <- <-; simpl;
             (split; [done|]); (split; [trace_goal Hall|]);
             (split; [right; by exists schema|]);
             (split; [(by left) || (right; split; [done|]; by exists schema)|]);
             done.
        -- unfold print in Hmain. injection Hmain as <- <-. simpl.
           split; [done|]. split; [trace_goal Hall|].
           split; [by left|]. split; [by left|]. done.
      * injection Hmain as <- <-. simpl.
        split; [done|]. split; [trace_goal Hall|].
        split; [by left|]. split; [by left|]. done.
    + unfold print in Hmain. injection Hmain as <- <-. simpl.
      split; [done|]. split; [trace_goal Hall|].
      split; [by left|]. split; [by left|]. done.
  - injection Hmain as <- <-. simpl.
    split; [done|]. split; [trace_goal Hall|].
    split; [by left|]. split; [by left|]. done.
Qed.

(** X2. Whatever happens, a run of [skill_compiler.main] leaves [SKILL.md]
    and the [tools/] directory as they were, only adds to the log, and
    calls the generative service at most once. *)
Theorem compiler_main_frame w :
  let w' := (main E w).1 in
  skill_dir_exists w' = skill_dir_exists w
  ∧ SKILL_md w' = SKILL_md w
  ∧ tools_dir w' = tools_dir w
  ∧ ∃ evs, trace w' = trace w ++ evs ∧ length (service_calls evs) ≤ 1.
Proof.
  destruct (main E w) as [w' r] eqn:Hmain. simpl.
  destruct (compiler_main_effect w w' r Hmain) as ((? & ? & ?) & ? & _).
  done.
Qed.

(** X3. A run of [skill_compiler.main] writes [tools_schema.json] only
    with a decoded schema that is a true value, and changes
    [manifest.json] only in a run that wrote such a schema and returned
    normally. *)
Theorem compiler_main_write_order w :
  let w' := (main E w).1 in
  let r := (main E w).2 in
  (tools_schema_json w' ≠ tools_schema_json w →
     ∃ schema, tools_schema_json w' = Some schema
               ∧ json_truthy schema = true)
  ∧ (manifest_json w' ≠ manifest_json w →
       r = Return ()
       ∧ ∃ schema, tools_schema_json w' = Some schema
                   ∧ json_truthy schema = true).
Proof.
  destruct (main E w) as [w' r] eqn:Hmain. simpl.
  destruct (compiler_main_effect w w' r Hmain) as (_ & _ & Hs & Hm & _).
  split.
  - intros Hne. by destruct Hs.
  - intros Hne. by destruct Hm.
Qed.

(** X4. [skill_compiler.main] exits through [sys.exit] exactly when the
    skill directory, [manifest.json], [SKILL.md] or [tools/] is missing;
    it then exits with status 1 after printing one error line, without
    calling the service or touching a file. *)
Theorem compiler_main_exits_iff_invalid w :
  let w' := (main E w).1 in
  let r := (main E w).2 in
  ((∃ n, r = SysExit n) ↔ ¬ valid_for_compiler w)
  ∧ (¬ valid_for_compiler w →
       r = SysExit 1 ∧ same_files w w'
       ∧ ∃ o, trace w' = trace w ++ [Printed o]).
Proof.
  destruct (main E w) as [w' r] eqn:Hmain. simpl.
  destruct (compiler_main_effect w w' r Hmain) as (_ & _ & _ & _ & Hinv & Hval).
  split; [split|].
  - intros [n ->] Hv. by destruct (Hval Hv n).
  - intros Hnv. destruct (Hinv Hnv) as (o & _ & ->). by exists 1.
  - intros Hnv. destruct (Hinv Hnv) as (o & -> & ->).
    split; [done|]. split; [by repeat split|]. by exists o.
Qed.

Ltac calls_goal :=
  rewrite !service_calls_app; simpl; rewrite <- ?app_assoc, ?app_nil_r;
  reflexivity.

(** [main] from the reply of the service on, after a scan that found
    tools. *)
Lemma main_on_reply w warnings skill_md t ts :
  skill_dir_exists w = true → is_Some (manifest_json w) →
  SKILL_md w = Some skill_md →
  scan_tools E w = (log_all warnings w, Return (t :: ts)) →
  main E w
  = (schema ← decode_schema E
                (schema_block (service E SCHEMA_SYSTEM_PROMPT
                                       (schema_request skill_md (t :: ts))));
     if negb (json_truthy schema) then print Msg_schema_failed
     else write_schema_file schema;;
          update_manifest_tools (t :: ts);;
          print Msg_compiled)
      (log_all (warnings
                ++ [Printed (Msg_found_tools (map name (t :: ts)));
                    Printed Msg_generating_schema;
                    ServiceCall SCHEMA_SYSTEM_PROMPT
                                (schema_request skill_md (t :: ts))]) w).
Proof.
  intros Hdir Hm Hs Hscan.
  assert (valid_for_compiler w) as Hv.
  { split; [done|]. split; [done|]. split; [by rewrite Hs|].
    unfold scan_tools in Hscan. by destruct (tools_dir w). }
  rewrite (main_after_scan w _ skill_md t ts Hv Hs Hscan).
  unfold mbind at 1, M_bind at 1. rewrite generate_tool_schema_eq.
  unfold log_all, log. simpl. by rewrite <- !app_assoc.
Qed.

(** X5. When the scan finds tools and the reply of the service holds a
    schema block that decodes to a true value, [main] on a package whose
    manifest is an object returns normally, having written that value
    to [tools_schema.json] and replaced the manifest's [tools] by the
    names of the scanned tools, in scan order; it made one service call
    and printed its four progress lines around it. *)
Theorem compiler_main_success w w1 dm skill_md t ts schema :
  skill_dir_exists w = true →
  manifest_json w = Some (JObj dm) → SKILL_md w = Some skill_md →
  scan_tools E w = (w1, Return (t :: ts)) →
  decoded_schema E (service E SCHEMA_SYSTEM_PROMPT
                            (schema_request skill_md (t :: ts)))
  = Some schema →
  json_truthy schema = true →
  ∃ w',
    main E w = (w', Return ())
    ∧ tools_schema_json w' = Some schema
    ∧ manifest_json w'
      = Some (JObj (<[py "tools" := scanned_names (t :: ts)]> dm))
    ∧ SKILL_md w' = SKILL_md w ∧ tools_dir w' = tools_dir w
    ∧ trace w'
      = trace w1
        ++ [Printed (Msg_found_tools (map name (t :: ts)));
            Printed Msg_generating_schema;
            ServiceCall SCHEMA_SYSTEM_PROMPT
                        (schema_request skill_md (t :: ts));
            Printed Msg_schema_written;
            Printed Msg_updated_manifest;
            Printed Msg_compiled].
Proof.
  intros Hdir Hm Hs Hscan Hdec Htruthy.
  destruct (scan_tools_log E w w1 _ Hscan) as (warnings & -> & _).
  rewrite (main_on_reply w warnings skill_md t ts) by (done || by rewrite Hm).
  unfold decoded_schema in Hdec.
  destruct (schema_block _) as [[|c block]|]; try done.
  unfold decode_schema, loads. rewrite Hdec.
  unfold mbind, M_bind, mret, M_ret. rewrite Htruthy. simpl.
  unfold write_schema_file, update_manifest_tools, mbind, M_bind,
    dump_tools_schema, load_manifest, lift, dump_manifest, print.
  simpl. rewrite Hm. simpl.
  eexists. split; [reflexivity|]. simpl.
  repeat split. by rewrite <- !app_assoc.
Qed.

(** X6. When the reply of the service holds no non-empty schema block,
    or the block is not valid JSON, or it decodes to a false value such
    as an empty list, [main] writes no file: it made its one service
    call and then either returns after reporting the failure or lets the
    [JSONDecodeError] escape. *)
Theorem compiler_main_no_schema_no_write w w1 skill_md t ts :
  skill_dir_exists w = true →
  is_Some (manifest_json w) → SKILL_md w = Some skill_md →
  scan_tools E w = (w1, Return (t :: ts)) →
  (∀ schema,
     decoded_schema E (service E SCHEMA_SYSTEM_PROMPT
                               (schema_request skill_md (t :: ts)))
     = Some schema → json_truthy schema = false) →
  let w' := (main E w).1 in
  let r := (main E w).2 in
  same_files w w'
  ∧ (r = Return () ∧ last (trace w') = Some (Printed Msg_schema_failed)
     ∨ r = Raise JSONDecodeError)
  ∧ service_calls (trace w')
    = service_calls (trace w1)
      ++ [ServiceCall SCHEMA_SYSTEM_PROMPT (schema_request skill_md (t :: ts))].
Proof.
  intros Hdir Hm Hs Hscan Hdec.
  destruct (scan_tools_log E w w1 _ Hscan) as (warnings & -> & _).
  rewrite (main_on_reply w warnings skill_md t ts) by done.
  unfold decoded_schema in Hdec.
  destruct (schema_block _) as [[|c block]|]; simpl.
  - split; [by repeat split|]. split.
    + left. split; [done|]. by rewrite last_snoc.
    + calls_goal.
  - unfold loads. destruct (json_loads E _) as [schema|]; simpl.
    + unfold mbind, M_bind, mret, M_ret.
      rewrite (Hdec schema eq_refl). simpl.
      split; [by repeat split|]. split.
      * left. split; [done|]. by rewrite last_snoc.
      * calls_goal.
    + split; [by repeat split|]. split; [by right|]. calls_goal.
  - split; [by repeat split|]. split.
    + left. split; [done|]. by rewrite last_snoc.
    + calls_goal.
Qed.

(** X7. When [manifest.json] holds a JSON value that is not an object,
    a run that decoded a true schema has written [tools_schema.json]
    before the manifest update raises [TypeError]: the schema file stays
    written and the manifest is as it was. *)
Theorem compiler_main_schema_kept_on_manifest_error
    w w1 manifest skill_md t ts schema :
  skill_dir_exists w = true →
  manifest_json w = Some manifest → (∀ dm, manifest ≠ JObj dm) →
  SKILL_md w = Some skill_md →
  scan_tools E w = (w1, Return (t :: ts)) →
  decoded_schema E (service E SCHEMA_SYSTEM_PROMPT
                            (schema_request skill_md (t :: ts)))
  = Some schema →
  json_truthy schema = true →
  ∃ w',
    main E w = (w', Raise TypeError)
    ∧ tools_schema_json w' = Some schema
    ∧ manifest_json w' = Some manifest
    ∧ last (trace w') = Some (Printed Msg_schema_written).
Proof.
  intros Hdir Hm Hno Hs Hscan Hdec Htruthy.
  destruct (scan_tools_log E w w1 _ Hscan) as (warnings & -> & _).
  rewrite (main_on_reply w warnings skill_md t ts) by (done || by rewrite Hm).
  unfold decoded_schema in Hdec.
  destruct (schema_block _) as [[|c block]|]; try done.
  unfold decode_schema, loads. rewrite Hdec.
  unfold mbind, M_bind, mret, M_ret. rewrite Htruthy. simpl.
  unfold write_schema_file, update_manifest_tools, mbind, M_bind,
    dump_tools_schema, load_manifest, lift, dump_manifest, print.
  simpl. rewrite Hm.
  destruct manifest; simpl;
    try (eexists; split; [reflexivity|]; simpl;
         split; [done|]; split; [done|]; by rewrite last_snoc).
  by destruct (Hno d).
Qed.
End compiler_more.

Lemma compiler_main_success_witness :
  ∃ w',
    SkillCompiler.main stub_schema sample_world = (w', Return ())
    ∧ tools_schema_json w' = Some (JArr [JInt 1])
    ∧ manifest_json w'
      = Some (JObj (<[py "tools" := JArr [JStr (py "score")]]> ∅)).
Proof.
  destruct (compiler_main_success stub_schema sample_world
              (log (Printed (Warn_syntax_error (py "broken.py"))) sample_world)
              ∅ (py "# t\n")
              (ToolInfo (py "score") (Some (py "doc")) None (py "x = 1")) []
              (JArr [JInt 1]))
    as (w' & Hmain & Hschema & Hmanifest & _).
  - reflexivity.
  - reflexivity.
  - reflexivity.
  - reflexivity.
  - reflexivity.
  - reflexivity.
  - exists w'. split; [exact Hmain|]. split; [exact Hschema | exact Hmanifest].
Defined.

Lemma compiler_main_no_schema_no_write_witness :
  same_files sample_world (SkillCompiler.main stub sample_world).1.
Proof.
  destruct (compiler_main_no_schema_no_write stub sample_world
              (log (Printed (Warn_syntax_error (py "broken.py"))) sample_world)
              (py "# t\n")
              (ToolInfo (py "score") (Some (py "doc")) None (py "x = 1")) [])
    as (Hsame & _).
  - reflexivity.
  - by eexists.
  - reflexivity.
  - reflexivity.
  - intros schema H. vm_compute in H. discriminate.
  - exact Hsame.
Defined.

Lemma compiler_main_schema_kept_on_manifest_error_witness :
  ∃ w',
    SkillCompiler.main stub_schema
      (World true (Some (JArr [])) (Some (py "# t\n")) (Some sample_tools)
             None [])
    = (w', Raise TypeError)
    ∧ tools_schema_json w' = Some (JArr [JInt 1])
    ∧ manifest_json w' = Some (JArr []).
Proof.
  destruct (compiler_main_schema_kept_on_manifest_error stub_schema
              (World true (Some (JArr [])) (Some (py "# t\n"))
                     (Some sample_tools) None [])
              (log (Printed (Warn_syntax_error (py "broken.py")))
                   (World true (Some (JArr [])) (Some (py "# t\n"))
                          (Some sample_tools) None []))
              (JArr []) (py "# t\n")
              (ToolInfo (py "score") (Some (py "doc")) None (py "x = 1")) []
              (JArr [JInt 1]))
    as (w' & Hmain & Hschema & Hmanifest & _).
  - reflexivity.
  - reflexivity.
  - intros dm. discriminate.
  - reflexivity.
  - reflexivity.
  - reflexivity.
  - reflexivity.
  - exists w'. split; [exact Hmain|]. split; [exact Hschema | exact Hmanifest].
Defined.

(* ===================================================================== *)
(** * Further properties of [expert_interviewer.py] *)
(* ===================================================================== *)

Section interview_more.
Import ExpertInterviewer.
Variable E : externals.
Implicit Types (inputs replies answers : list pystr) (w : world).

Lemma exchange_snoc_reply replies answers reply :
  length replies = length answers →
  exchange replies answers ++ [Message assistant reply]
  = exchange (replies ++ [reply]) answers.
Proof.
  revert answers. induction replies as [|r rs IH]; intros [|a answers];
    simpl; try done.
  intros [= Hlen]. by rewrite IH.
Qed.

Lemma exchange_snoc_answer replies answers answer :
  length replies = S (length answers) →
  exchange replies answers ++ [Message user answer]
  = exchange replies (answers ++ [answer]).
Proof.
  revert answers. induction replies as [|r rs IH]; intros answers; [done|].
  destruct answers as [|a answers]; simpl.
  - intros [= Hlen]. by destruct rs.
  - intros [= Hlen]. by rewrite IH.
Qed.

(** One turn of the loop of [run_interview]. *)
Lemma interview_loop_unfold inputs replies answers w :
  length replies = length answers →
  let reply := service E INTERVIEW_SYSTEM_PROMPT
                       (seed :: exchange replies answers) in
  let w1 := log (Printed (Msg_interviewer reply))
              (log (ServiceCall INTERVIEW_SYSTEM_PROMPT
                                (seed :: exchange replies answers)) w) in
  let messages := seed :: exchange (replies ++ [reply]) answers in
  interview_loop E inputs (loop_messages replies answers) w
  = if ends_interview reply
    then (log (Printed Msg_interview_auto_end) w1, Return messages)
    else match inputs with
         | [] => (w1, Raise EOFError)
         | line :: rest =>
           if is_cancel E line
           then (log (Printed Msg_interview_manual_end) w1, Return messages)
           else interview_loop E rest
                  (loop_messages (replies ++ [reply])
                                 (answers ++ [strip line])) w1
         end.
Proof.
  intros Hlen reply w1 messages.
  assert (match loop_messages replies answers with
          | [] => [seed]
          | _ :: _ => loop_messages replies answers
          end = seed :: exchange replies answers) as Hhist.
  { destruct replies; [by destruct answers | done]. }
  assert ((if (length (loop_messages replies answers
                       ++ [Message assistant reply]) =? 1)%nat
           then seed :: loop_messages replies answers
                        ++ [Message assistant reply]
           else loop_messages replies answers ++ [Message assistant reply])
          = messages) as Hmsgs.
  { unfold messages. rewrite <- exchange_snoc_reply by done.
    destruct replies as [|r rs]; [by destruct answers|].
    unfold loop_messages.
    change ((seed :: exchange (r :: rs) answers) ++ [Message assistant reply])
      with (seed :: (exchange (r :: rs) answers ++ [Message assistant reply])).
    destruct (exchange (r :: rs) answers ++ [Message assistant reply])
      as [|m ms] eqn:Hx; [|done].
    by apply app_nil in Hx as [_ [=]]. }
  assert (∀ line, loop_messages (replies ++ [reply]) (answers ++ [strip line])
                  = messages ++ [Message user (strip line)]) as Hnext.
  { intros line. unfold messages. simpl.
    rewrite exchange_snoc_answer by (rewrite length_app; simpl; lia).
    by destruct replies. }
  destruct inputs as [|line rest]; simpl;
    unfold mbind, M_bind, call_service, print; simpl;
    rewrite Hhist; fold reply; rewrite Hmsgs; fold (ends_interview reply);
    destruct (ends_interview reply); try done.
  fold (is_cancel E line). destruct (is_cancel E line); [done|].
  by rewrite Hnext.
Qed.

Ltac stop_now reply :=
  exists 0, [reply]; simpl; rewrite ?app_nil_r;
  (split; [lia|]); (split; [done|]); (split; [done|]);
  (split;
   [intros [|i] r Hr;
    [injection Hr as <-; simpl; by rewrite ?app_nil_r | by destruct i]|]);
  (split; [intros; lia|]); (split; [intros; lia|]).

(** The conversations the loop can return, from any of its states. *)
Lemma interview_loop_returns inputs replies answers w w' result :
  length replies = length answers →
  interview_loop E inputs (loop_messages replies answers) w
  = (w', Return result) →
  ∃ k more,
    k ≤ length inputs ∧ length more = S k
    ∧ result = seed :: exchange (replies ++ more)
                                (answers ++ map strip (take k inputs))
    ∧ (∀ i reply, more !! i = Some reply →
         reply = service E INTERVIEW_SYSTEM_PROMPT
                   (seed :: exchange (replies ++ take i more)
                                     (answers ++ map strip (take i inputs))))
    ∧ (∀ i reply, i < k → more !! i = Some reply →
         ends_interview reply = false)
    ∧ (∀ i line, i < k → inputs !! i = Some line → is_cancel E line = false)
    ∧ ((∃ reply, more !! k = Some reply ∧ ends_interview reply = true)
       ∨ (∃ line, inputs !! k = Some line ∧ is_cancel E line = true)).
Proof.
  revert replies answers w.
  induction inputs as [|line rest IH]; intros replies answers w Hlen;
    rewrite interview_loop_unfold by done;
    set (reply := service E INTERVIEW_SYSTEM_PROMPT
                          (seed :: exchange replies answers)).
  - destruct (ends_interview reply) eqn:Hend; [|done].
    intros [= _ <-]. stop_now reply. left. by exists reply.
  - destruct (ends_interview reply) eqn:Hend.
    { intros [= _ <-]. stop_now reply. left. by exists reply. }
    destruct (is_cancel E line) eqn:Hcancel.
    { intros [= _ <-]. stop_now reply. right. by exists line. }
    intros Hloop.
    apply IH in Hloop as (k & more & Hk & Hmore & -> & Hreplies & Hgo & Hin & Hstop);
      [|rewrite !length_app; simpl; lia].
    exists (S k), (reply :: more). simpl.
    split; [lia|]. split; [by rewrite Hmore|]. split.
    { by rewrite <- !app_assoc. }
    split; [|split; [|split]].
    + intros [|i] r Hr; simpl in Hr.
      * injection Hr as <-. simpl. by rewrite !app_nil_r.
      * simpl. rewrite (Hreplies i r Hr). by rewrite <- !app_assoc.
    + intros [|i] r Hi Hr; simpl in Hr; [by injection Hr as <-|].
      apply (Hgo i r); [lia | done].
    + intros [|i] l Hi Hl; simpl in Hl; [by injection Hl as <-|].
      apply (Hin i l); [lia | done].
    + done.
Qed.

(** X. Every conversation [run_interview] returns is the opening turn
    followed by replies of the service and answers of the respondent in
    strict alternation, ending with a reply: the answers are the first
    [k] input lines, stripped, in their order, none dropped; each reply
    is what the service returned for the whole conversation before it;
    no reply before the last holds the sentinel and none of the [k]
    lines is a cancellation token; and the run stopped because the last
    reply holds the sentinel or because the next line is a cancellation
    token. *)
Theorem run_interview_conversation inputs w w' messages :
  run_interview E inputs w = (w', Return messages) →
  ∃ k replies,
    k ≤ length inputs ∧ length replies = S k
    ∧ messages = seed :: exchange replies (map strip (take k inputs))
    ∧ (∀ i reply, replies !! i = Some reply →
         reply = service E INTERVIEW_SYSTEM_PROMPT
                   (seed :: exchange (take i replies)
                                     (map strip (take i inputs))))
    ∧ (∀ i reply, i < k → replies !! i = Some reply →
         ends_interview reply = false)
    ∧ (∀ i line, i < k → inputs !! i = Some line → is_cancel E line = false)
    ∧ ((∃ reply, replies !! k = Some reply ∧ ends_interview reply = true)
       ∨ (∃ line, inputs !! k = Some line ∧ is_cancel E line = true)).
Proof.
  unfold run_interview. rewrite bind_print. intros Hloop.
  by apply (interview_loop_returns inputs [] []) in Hloop.
Qed.

(** Without sentinel and cancellation token the loop reads all its
    input, calls the service once per line and once more, and ends in
    [EOFError]. *)
Lemma interview_loop_eof inputs replies answers w :
  length replies = length answers →
  (∀ history,
     ends_interview (service E INTERVIEW_SYSTEM_PROMPT history) = false) →
  (∀ line, line ∈ inputs → is_cancel E line = false) →
  ∃ evs,
    interview_loop E inputs (loop_messages replies answers) w
    = (log_all evs w, Raise EOFError)
    ∧ length (service_calls evs) = S (length inputs).
Proof.
  intros Hlen Hgo. revert replies answers w Hlen.
  induction inputs as [|line rest IH]; intros replies answers w Hlen Hin;
    rewrite interview_loop_unfold by done; rewrite Hgo.
  - eexists [_; _].
    split; [unfold log_all, log; simpl; by rewrite <- app_assoc | reflexivity].
  - rewrite Hin by by left.
    match goal with
    | |- context [interview_loop E rest (loop_messages ?rs ?as') ?w1] =>
        destruct (IH rs as' w1) as (evs & -> & Hn)
    end.
    { rewrite !length_app. simpl. lia. }
    { intros l Hl. apply Hin. by right. }
    eexists (_ :: _ :: evs).
    split; [unfold log_all, log; simpl; by rewrite <- !app_assoc
           | simpl; by rewrite Hn].
Qed.

(** X. When no reply of the service holds the sentinel and no input line
    is a cancellation token, [run_interview] never returns a
    conversation: it reads every line, calls the service once per line
    and once more, and ends in the [EOFError] of [input]. *)
Theorem run_interview_needs_a_stop inputs w :
  (∀ history,
     ends_interview (service E INTERVIEW_SYSTEM_PROMPT history) = false) →
  (∀ line, line ∈ inputs → is_cancel E line = false) →
  (run_interview E inputs w).2 = Raise EOFError
  ∧ length (service_calls (trace (run_interview E inputs w).1))
    = length (service_calls (trace w)) + S (length inputs).
Proof.
  intros Hgo Hin. unfold run_interview. rewrite bind_print.
  destruct (interview_loop_eof inputs [] []
              (log (Printed Msg_interview_begin) w) eq_refl Hgo Hin)
    as (evs & Hloop & Hn).
  change (loop_messages [] []) with (@nil message) in Hloop.
  rewrite Hloop. simpl. split; [done|].
  rewrite !service_calls_app, !length_app, Hn. simpl. lia.
Qed.
End interview_more.

Lemma run_interview_conversation_witness :
  ∃ k replies,
    k ≤ 2 ∧ length replies = S k
    ∧ [ExpertInterviewer.seed; Message assistant (py "hello");
       Message user (py "a"); Message assistant (py "hello")]
      = ExpertInterviewer.seed
        :: exchange replies (map strip (take k [py " a "; py "quit"])).
Proof.
  destruct (run_interview_conversation stub [py " a "; py "quit"] sample_world
              (ExpertInterviewer.run_interview stub [py " a "; py "quit"]
                                               sample_world).1
              [ExpertInterviewer.seed; Message assistant (py "hello");
               Message user (py "a"); Message assistant (py "hello")])
    as (k & replies & Hk & Hlen & Hmsgs & _).
  - reflexivity.
  - exists k, replies. split; [exact Hk|]. split; [exact Hlen | exact Hmsgs].
Defined.

Lemma run_interview_needs_a_stop_witness :
  (ExpertInterviewer.run_interview stub [py "a"; py "b"] sample_world).2
  = Raise EOFError.
Proof.
  apply (run_interview_needs_a_stop stub [py "a"; py "b"] sample_world).
  - intros history. reflexivity.
  - intros line Hin.
    apply elem_of_cons in Hin as [->|Hin]; [reflexivity|].
    apply list_elem_of_singleton in Hin as ->. reflexivity.
Defined.

(* ===================================================================== *)
(** * Further properties of document synthesis *)
(* ===================================================================== *)

Section documents_more.
Import ExpertInterviewer.
Variable E : externals.
Implicit Types (w : world) (messages : list message).

Lemma generate_documents_eq messages w :
  generate_documents E messages w
  = (apply_skill_md_block
       (doc_block (service E GENERATION_SYSTEM_PROMPT
                           (generation_request messages)));;
     apply_manifest_block E
       (manifest_block (service E GENERATION_SYSTEM_PROMPT
                                (generation_request messages)));;
     print Msg_documents_done)
      (log_all [Printed Msg_generating_documents;
                ServiceCall GENERATION_SYSTEM_PROMPT
                            (generation_request messages)] w).
Proof.
  unfold generate_documents. rewrite bind_print.
  unfold mbind at 1, M_bind at 1, call_service.
  unfold log_all, log. simpl. by rewrite <- app_assoc.
Qed.

(** What the document block does. *)
Lemma apply_skill_md_block_eq block w :
  apply_skill_md_block block w
  = match block with
    | Some (c :: t) =>
        (log (Printed Msg_updated_skill_md)
             (World (skill_dir_exists w) (manifest_json w)
                    (Some (strip (c :: t) ++ py "\n")) (tools_dir w)
                    (tools_schema_json w) (trace w)),
         Return ())
    | _ => (w, Return ())
    end.
Proof. by destruct block as [[|c t]|]. Qed.

Ltac nothing_done :=
  solve [ repeat split; simpl; try done; try (by left);
          try (let H := fresh in intros H; by destruct H) ].

(** What the manifest block can do. *)
Lemma apply_manifest_block_effect block w :
  let w' := (apply_manifest_block E block w).1 in
  let r := (apply_manifest_block E block w).2 in
  same_files_but_manifest w w'
  ∧ service_calls (trace w') = service_calls (trace w)
  ∧ (manifest_json w' = manifest_json w ∨ r = Return ())
  ∧ (∀ n, r ≠ SysExit n)
  ∧ (r ≠ Return () → w' = w).
Proof.
  destruct block as [[|c t]|]; simpl; try nothing_done.
  unfold mbind, M_bind, load_manifest.
  destruct (manifest_json w) as [manifest|] eqn:Hm; [|nothing_done].
  unfold loads. destruct (json_loads E _) as [updates|]; simpl;
    [|nothing_done].
  unfold lift.
  destruct (merge_manifest_updates manifest updates) as [m'|e|n] eqn:Hmerge;
    simpl.
  - split; [by repeat split|]. split.
    { rewrite service_calls_app. simpl. by rewrite app_nil_r. }
    split; [by right|]. done.
  - nothing_done.
  - exfalso. revert Hmerge. unfold merge_manifest_updates.
    destruct updates; try done. destruct manifest; try done.
    destruct (_ !! py "description"); [|done]. by destruct (_ !! py "tags").
Qed.

(** What [generate_documents] can do, in all its outcomes. *)
Lemma generate_documents_outcomes messages w :
  let reply := service E GENERATION_SYSTEM_PROMPT
                 (generation_request messages) in
  let w' := (generate_documents E messages w).1 in
  let r := (generate_documents E messages w).2 in
  skill_dir_exists w' = skill_dir_exists w
  ∧ tools_dir w' = tools_dir w
  ∧ tools_schema_json w' = tools_schema_json w
  ∧ service_calls (trace w')
    = service_calls (trace w)
      ++ [ServiceCall GENERATION_SYSTEM_PROMPT (generation_request messages)]
  ∧ SKILL_md w' = match doc_block reply with
                  | Some (c :: t) => Some (strip (c :: t) ++ py "\n")
                  | _ => SKILL_md w
                  end
  ∧ (manifest_json w' ≠ manifest_json w → r = Return ())
  ∧ (∀ n, r ≠ SysExit n).
Proof.
  intros reply.
  destruct (generate_documents E messages w) as [wf rf] eqn:Hgen. simpl.
  rewrite generate_documents_eq in Hgen. fold reply in Hgen.
  unfold mbind at 1, M_bind at 1 in Hgen.
  rewrite apply_skill_md_block_eq in Hgen.
  assert (∀ w2 : world,
    let w' := ((apply_manifest_block E (manifest_block reply);;
                print Msg_documents_done) w2).1 in
    let r := ((apply_manifest_block E (manifest_block reply);;
               print Msg_documents_done) w2).2 in
    same_files_but_manifest w2 w'
    ∧ service_calls (trace w') = service_calls (trace w2)
    ∧ (manifest_json w' ≠ manifest_json w2 → r = Return ())
    ∧ (∀ n, r ≠ SysExit n)) as Hrest.
  { intros w2. unfold mbind, M_bind.
    pose proof (apply_manifest_block_effect (manifest_block reply) w2)
      as (Hf & Hc & Hm & Hx & _).
    destruct (apply_manifest_block E (manifest_block reply) w2)
      as [w3 [[]|e|n]]; simpl in *.
    - split; [done|]. split.
      { rewrite service_calls_app, Hc. simpl. by rewrite app_nil_r. }
      done.
    - split; [done|]. split; [done|]. split; [|done].
      intros Hne. by destruct Hm.
    - by destruct (Hx n). }
  destruct (doc_block reply) as [[|c t]|]; simpl in Hgen;
    match type of Hgen with
    | _ ?w2 = _ =>
        pose proof (Hrest w2) as H; rewrite Hgen in H; simpl in H;
        destruct H as ((? & Hs & ? & ?) & Hc & Hm & Hx)
    end;
    (split; [done|]); (split; [done|]); (split; [done|]);
    (split; [rewrite Hc, !service_calls_app; simpl;
             by rewrite <- ?app_assoc, ?app_nil_r|]);
    (split; [done|]); (split; [exact Hm | exact Hx]).
Qed.

(** X. When the reply holds a non-empty manifest block that decodes to
    an object, and the manifest is an object with [description] and
    [tags], [generate_documents] returns normally with a manifest whose
    [description] and [tags] are those of the decoded object where it
    has the key and the old ones where it has not, every other field
    being as before; its last line of output reports completion. *)
Theorem generate_documents_merges_manifest
    messages w m u description tags block :
  manifest_block (service E GENERATION_SYSTEM_PROMPT
                          (generation_request messages)) = Some block →
  block ≠ [] →
  json_loads E (strip block) = Some (JObj u) →
  manifest_json w = Some (JObj m) →
  m !! py "description" = Some description →
  m !! py "tags" = Some tags →
  ∃ w' m',
    generate_documents E messages w = (w', Return ())
    ∧ manifest_json w' = Some (JObj m')
    ∧ m' !! py "description"
      = Some (default description (u !! py "description"))
    ∧ m' !! py "tags" = Some (default tags (u !! py "tags"))
    ∧ (∀ k, k ≠ py "description" → k ≠ py "tags" → m' !! k = m !! k)
    ∧ last (trace w') = Some (Printed Msg_documents_done).
Proof.
  intros Hblock Hne Hloads Hm Hd Ht.
  rewrite generate_documents_eq, Hblock.
  unfold mbind at 1, M_bind at 1. rewrite apply_skill_md_block_eq.
  destruct block as [|c t]; [done|].
  destruct (doc_block _) as [[|c' t']|]; simpl;
    unfold mbind, M_bind, load_manifest, loads, lift, dump_manifest, print;
    simpl; rewrite Hm, Hloads; simpl; rewrite Hd;
    rewrite lookup_insert_ne by done; rewrite Ht; simpl;
    (eexists _, _; split; [reflexivity|]; simpl; split; [reflexivity|];
     split; [rewrite lookup_insert_ne by done; by rewrite lookup_insert_eq|];
     split; [by rewrite lookup_insert_eq|];
     split; [intros k ? ?; by rewrite !lookup_insert_ne|];
     by rewrite last_snoc).
Qed.

(** X. When the reply holds a non-empty manifest block that is not valid
    JSON, [generate_documents] ends in [JSONDecodeError] with
    [manifest.json] as it was, but after [SKILL.md] has been replaced by
    the document block of the same reply, if it holds one: the document
    is not rolled back. *)
Theorem generate_documents_malformed_manifest messages w block :
  let reply := service E GENERATION_SYSTEM_PROMPT
                 (generation_request messages) in
  manifest_block reply = Some block → block ≠ [] →
  json_loads E (strip block) = None →
  is_Some (manifest_json w) →
  let w' := (generate_documents E messages w).1 in
  (generate_documents E messages w).2 = Raise JSONDecodeError
  ∧ manifest_json w' = manifest_json w
  ∧ SKILL_md w' = match doc_block reply with
                  | Some (c :: t) => Some (strip (c :: t) ++ py "\n")
                  | _ => SKILL_md w
                  end.
Proof.
  intros reply Hblock Hne Hloads [manifest Hm].
  destruct (generate_documents E messages w) as [wf rf] eqn:Hgen. simpl.
  rewrite generate_documents_eq in Hgen. fold reply in Hgen.
  rewrite Hblock in Hgen.
  unfold mbind at 1, M_bind at 1 in Hgen.
  rewrite apply_skill_md_block_eq in Hgen.
  destruct block as [|c t]; [done|].
  destruct (doc_block reply) as [[|c' t']|]; simpl in Hgen;
    unfold mbind, M_bind, load_manifest, loads, lift, dump_manifest, print
      in Hgen;
    simpl in Hgen; rewrite Hm, Hloads in Hgen; simpl in Hgen;
    by injection Hgen as <- <-.
Qed.

(** X. Whatever the reply of the service, [generate_documents] calls the
    service exactly once and leaves [tools/] and [tools_schema.json] as
    they were. [SKILL.md] is replaced by the stripped document block and
    one line feed whenever the reply holds a non-empty document block,
    also in runs that then fail on the manifest block, and it is left as
    it was otherwise; [manifest.json] changes only in a run that returns
    normally. *)
Theorem generate_documents_effect messages w :
  let reply := service E GENERATION_SYSTEM_PROMPT
                 (generation_request messages) in
  let w' := (generate_documents E messages w).1 in
  let r := (generate_documents E messages w).2 in
  tools_dir w' = tools_dir w
  ∧ tools_schema_json w' = tools_schema_json w
  ∧ service_calls (trace w')
    = service_calls (trace w)
      ++ [ServiceCall GENERATION_SYSTEM_PROMPT (generation_request messages)]
  ∧ SKILL_md w' = match doc_block reply with
                  | Some (c :: t) => Some (strip (c :: t) ++ py "\n")
                  | _ => SKILL_md w
                  end
  ∧ (manifest_json w' ≠ manifest_json w → r = Return ()).
Proof.
  pose proof (generate_documents_outcomes messages w)
    as (_ & ? & ? & ? & ? & ? & _).
  done.
Qed.

Lemma interviewer_validate_cases w :
  (valid_for_interviewer w ∧ validate_skill_dir w = (w, Return ()))
  ∨ (¬ valid_for_interviewer w
     ∧ ∃ o, validate_skill_dir w = (log (Printed o) w, SysExit 1)).
Proof.
  unfold valid_for_interviewer, validate_skill_dir.
  destruct (skill_dir_exists w); simpl;
    [|right; split; [intros (? & _); done | by eexists]].
  destruct (manifest_json w); simpl;
    [|right; split; [intros (_ & [? ?] & _); done | by eexists]].
  destruct (SKILL_md w); simpl;
    [|right; split; [intros (_ & _ & [? ?]); done | by eexists]].
  left. by repeat split.
Qed.

Lemma interview_loop_never_exits inputs messages :
  never_exits (interview_loop E inputs messages).
Proof.
  revert messages.
  induction inputs as [|line rest IH]; intros messages w w' r; simpl;
    unfold mbind, M_bind, call_service, print; simpl;
    destruct (contains _ _); try (by intros [= _ <-]).
  destruct (_ || _); [by intros [= _ <-]|]. apply IH.
Qed.

(** X. [expert_interviewer.main] ends through [sys.exit] exactly when the
    skill directory, [manifest.json] or [SKILL.md] is missing; it then
    exits with status 1 after printing one error line, before the
    interview starts: no service call is made and no file changes. *)
Theorem interviewer_main_exits_iff_invalid inputs w :
  let w' := (main E inputs w).1 in
  let r := (main E inputs w).2 in
  ((∃ n, r = SysExit n) ↔ ¬ valid_for_interviewer w)
  ∧ (¬ valid_for_interviewer w →
       r = SysExit 1 ∧ same_files w w'
       ∧ ∃ o, trace w' = trace w ++ [Printed o]).
Proof.
  destruct (main E inputs w) as [wf rf] eqn:Hmain. simpl.
  unfold main in Hmain. unfold mbind at 1, M_bind at 1 in Hmain.
  destruct (interviewer_validate_cases w) as [[Hv Hval]|[Hnv [o Hval]]];
    rewrite Hval in Hmain.
  - assert (∀ n, rf ≠ SysExit n) as Hno.
    { simpl in Hmain. unfold mbind at 1, M_bind at 1 in Hmain.
      destruct (run_interview E inputs w) as [w1 [messages|e|n]] eqn:Hrun.
      - destruct messages as [|m1 [|m2 ms]]; simpl in Hmain;
          try (by injection Hmain as <- <-).
        intros n.
        pose proof (generate_documents_outcomes (m1 :: m2 :: ms) w1)
          as (_ & _ & _ & _ & _ & _ & Hx).
        rewrite Hmain in Hx. apply Hx.
      - by injection Hmain as <- <-.
      - unfold run_interview in Hrun. rewrite bind_print in Hrun.
        by destruct (interview_loop_never_exits _ _ _ _ _ Hrun n). }
    split; [|done]. split; [|done].
    intros [n ->]. by destruct (Hno n).
  - injection Hmain as <- <-. split; [split; [done|]|].
    + intros _. by exists 1.
    + intros _. split; [done|]. split; [by repeat split|]. by exists o.
Qed.
End documents_more.

Lemma generate_documents_merges_manifest_witness :
  ∃ w' m',
    ExpertInterviewer.generate_documents stub_documents []
      (World true (Some (JObj fresh_manifest)) (Some (py "old")) None None [])
    = (w', Return ())
    ∧ manifest_json w' = Some (JObj m')
    ∧ m' !! py "description" = Some (JStr (py "d"))
    ∧ m' !! py "tags" = Some (JArr []).
Proof.
  destruct (generate_documents_merges_manifest stub_documents []
              (World true (Some (JObj fresh_manifest)) (Some (py "old"))
                     None None [])
              fresh_manifest (<[py "description" := JStr (py "d")]> ∅)
              (JStr []) (JArr []) (py "{}"))
    as (w' & m' & Hrun & Hm & Hd & Ht & _).
  - reflexivity.
  - discriminate.
  - reflexivity.
  - reflexivity.
  - reflexivity.
  - reflexivity.
  - exists w', m'. split; [exact Hrun|]. split; [exact Hm|].
    split; [exact Hd | exact Ht].
Defined.

Lemma generate_documents_malformed_manifest_witness :
  (ExpertInterviewer.generate_documents
     (Externals (service stub_documents) (λ _, None) (ast_parse stub) (λ s, s))
     []
     (World true (Some (JObj fresh_manifest)) (Some (py "old")) None None [])).2
  = Raise JSONDecodeError.
Proof.
  apply (generate_documents_malformed_manifest
           (Externals (service stub_documents) (λ _, None) (ast_parse stub)
                      (λ s, s))
           []
           (World true (Some (JObj fresh_manifest)) (Some (py "old"))
                  None None [])
           (py "{}")).
  - reflexivity.
  - discriminate.
  - reflexivity.
  - by eexists.
Defined.

(* ===================================================================== *)
(** * Further properties of tool extraction *)
(* ===================================================================== *)

Section tools_more.
Import ScanCode SkillCompiler.
Variable E : externals.
Implicit Types (d : gmap pystr entry) (w : world) (f s : pystr).





End tools_more.


Section strip_more.
Import ScanCode.
Variable E : externals.
Implicit Types (s : pystr).





End strip_more.

(* ===================================================================== *)
(** * Further properties of the section editor *)
(* ===================================================================== *)

Section occurrences.
Implicit Types (s sub X Y : pystr) (i j : nat).

Lemma occurs_at_lookup sub s j i c :
  occurs_at sub s j → sub !! i = Some c → s !! (j + i) = Some c.
Proof.
  intros (pre & post & -> & <-) Hc.
  rewrite lookup_app_r by lia.
  replace (length pre + i - length pre) with i by lia.
  by apply lookup_app_l_Some.
Qed.

Lemma occurs_at_app_l sub X Y j : occurs_at sub X j → occurs_at sub (X ++ Y) j.
Proof.
  intros (pre & post & -> & <-). exists pre, (post ++ Y).
  split; [by rewrite <- !app_assoc | done].
Qed.

Lemma occurs_at_app_r sub X Y j :
  occurs_at sub Y j → occurs_at sub (X ++ Y) (length X + j).
Proof.
  intros (pre & post & -> & <-). exists (X ++ pre), post.
  split; [by rewrite <- !app_assoc | by rewrite length_app].
Qed.

Lemma occurs_at_app_inv_l sub X Y j :
  occurs_at sub (X ++ Y) j → j + length sub ≤ length X → occurs_at sub X j.
Proof.
  intros Hocc Hle. apply (occurs_at_agree (length X) sub (X ++ Y)); [|done..].
  by rewrite take_app_length, take_ge.
Qed.

Lemma occurs_at_app_inv_r sub X Y j :
  occurs_at sub (X ++ Y) j → length X ≤ j → occurs_at sub Y (j - length X).
Proof.
  rewrite !occurs_at_prefix. intros [Hlen Hpre] Hle.
  rewrite length_app in Hlen. split; [lia|].
  by rewrite drop_app_ge in Hpre.
Qed.

(** An occurrence of a level-2 heading line in a concatenation whose
    second part is empty or starts with a line feed lies in one of the
    two parts. *)
Lemma heading_line_app X Y j :
  occurs_at (py "\n## ") (X ++ Y) j →
  Y = [] ∨ head Y = Some 10%N →
  occurs_at (py "\n## ") X j
  ∨ (length X ≤ j ∧ occurs_at (py "\n## ") Y (j - length X)).
Proof.
  intros Hocc HY.
  destruct (decide (j + 4 ≤ length X)) as [Hl|Hl];
    [left; by apply (occurs_at_app_inv_l _ X Y)|].
  destruct (decide (length X ≤ j)) as [Hr|Hr];
    [right; split; [done | by apply occurs_at_app_inv_r]|].
  exfalso. pose proof (occurs_at_bound _ _ _ Hocc) as Hb.
  rewrite length_app in Hb. change (length (py "\n## ")) with 4 in Hb.
  destruct HY as [->|HY]; [simpl in Hb; lia|].
  destruct Y as [|y Y']; [done|]. injection HY as ->.
  assert ((X ++ 10%N :: Y') !! length X = Some 10%N) as Hx
    by (rewrite lookup_app_r by lia; by rewrite Nat.sub_diag).
  assert (∃ i, length X = j + i ∧ 1 ≤ i ≤ 3) as (i & Hi & Hrange)
    by (exists (length X - j); lia).
  rewrite Hi in Hx.
  destruct i as [|[|[|[|i]]]]; try lia.
  - rewrite (occurs_at_lookup _ _ j 1 35%N Hocc) in Hx; done.
  - rewrite (occurs_at_lookup _ _ j 2 35%N Hocc) in Hx; done.
  - rewrite (occurs_at_lookup _ _ j 3 32%N Hocc) in Hx; done.
Qed.
End occurrences.

Section editor_more.
Import ScanCode.
Implicit Types (content doc : pystr) (idx j : nat).


Lemma heading_kept content doc idx :
  first_occurrence marker content idx →
  first_occurrence marker (update_skill_md_content content doc) idx.
Proof.
  intros Hi.
  apply (first_occurrence_agree (idx + length marker) marker content);
    [|lia|done].
  destruct (edit_frame content doc idx Hi) as (_ & -> & [k ->]).
  pose proof (occurs_at_bound _ _ _ (proj1 (proj2 Hi))) as Hb.
  rewrite <- !app_assoc. rewrite take_app_length'; [done|].
  rewrite length_take. lia.
Qed.


End editor_more.

Section editor_accumulate.
Import ScanCode.
Implicit Types (content doc : pystr) (idx j : nat).

(** The parts of a document around the insertion point of an edit. *)
Lemma edit_parts content idx :
  first_occurrence marker content idx →
  let ip := insert_pos content idx in
  let kept := rstrip (take ip content) in
  let rest := drop ip content in
  idx + length marker ≤ length kept
  ∧ (rest = [] ∨ head rest = Some 10%N)
  ∧ (rest ≠ [] → occurs_at (py "\n## ") rest 0)
  ∧ (∀ j, idx + length marker ≤ j → ¬ occurs_at (py "\n## ") kept j).
Proof.
  intros Hi ip kept rest.
  pose proof (insert_pos_bounds content idx (proj1 (proj2 Hi))) as [Hh Hip].
  destruct (edit_frame content [] idx Hi) as (Hcontent & _ & [k Hk]).
  fold ip kept rest in Hcontent, Hk.
  split; [|split; [|split]].
  - rewrite Hk, length_app, length_take. lia.
  - destruct (insert_pos_spec content idx) as [(_ & Hocc & _)|[_ Heq]].
    + right. unfold rest, ip. rewrite (occurs_at_drop _ _ _ Hocc). done.
    + left. unfold rest, ip. rewrite Heq. by apply drop_ge.
  - intros Hne.
    destruct (insert_pos_spec content idx) as [(_ & Hocc & _)|[_ Heq]].
    + unfold rest, ip. rewrite (occurs_at_drop _ _ _ Hocc).
      by exists [], (drop (insert_pos content idx + length (py "\n## ")) content).
    + destruct Hne. unfold rest, ip. rewrite Heq. by apply drop_ge.
  - intros j Hj Hocc.
    assert (occurs_at (py "\n## ") content j) as Hc
      by (rewrite Hcontent; by apply occurs_at_app_l).
    pose proof (occurs_at_bound _ _ _ Hocc) as Hb.
    assert (length kept ≤ ip) as Hk'.
    { pose proof (length_rstrip (take ip content)) as Hl.
      fold kept in Hl. rewrite length_take in Hl. lia. }
    change (length (py "\n## ")) with 4 in Hb.
    destruct (insert_pos_spec content idx) as [(_ & _ & Hmin)|[Habs _]].
    + apply (Hmin j); [done | fold ip; lia | done].
    + by apply (Habs j).
Qed.

(** The insertion point of a second edit, after a first one whose
    content has no level-2 heading line. *)
Lemma insert_pos_after_edit content d1 idx :
  first_occurrence marker content idx →
  absent (py "\n## ") (py "\n" ++ d1) →
  let kept := rstrip (take (insert_pos content idx) content) in
  insert_pos (update_skill_md_content content d1) idx
  = length (kept ++ py "\n" ++ d1 ++ py "\n\n").
Proof.
  intros Hi Hd1 kept.
  destruct (edit_parts content idx Hi) as (Hh & Hrest & Hstart & Hkept).
  fold kept in Hh, Hkept.
  rewrite (update_found content d1 idx Hi). fold kept.
  set (rest := drop (insert_pos content idx) content) in *.
  set (new1 := kept ++ py "\n" ++ d1 ++ py "\n\n" ++ rest).
  set (ip1 := length (kept ++ py "\n" ++ d1 ++ py "\n\n")).
  assert (∀ j, idx + length marker ≤ j → occurs_at (py "\n## ") new1 j →
               ip1 ≤ j) as Hnone.
  { intros j Hj Hocc. unfold new1 in Hocc.
    apply heading_line_app in Hocc as [Hocc|[Hj1 Hocc]];
      [| |right; reflexivity].
    { by destruct (Hkept j). }
    rewrite (app_assoc (py "\n") d1) in Hocc.
    apply heading_line_app in Hocc as [Hocc|[Hj2 Hocc]];
      [| |right; reflexivity].
    { by destruct (Hd1 (j - length kept)); [lia|]. }
    rewrite length_app in Hj2. change (length (py "\n")) with 1 in Hj2.
    unfold ip1. rewrite !length_app.
    change (length (py "\n")) with 1. change (length (py "\n\n")) with 2.
    destruct (decide (2 ≤ j - length kept - length (py "\n" ++ d1)))
      as [Hge|Hlt]; [rewrite length_app in Hge;
                     change (length (py "\n")) with 1 in Hge; lia|].
    exfalso.
    destruct (j - length kept - length (py "\n" ++ d1)) as [|[|n]] eqn:Hn;
      [| |lia].
    - by pose proof (occurs_at_lookup _ _ 0 1 35%N Hocc eq_refl).
    - pose proof (occurs_at_lookup _ _ 1 1 35%N Hocc eq_refl) as Hx.
      simpl in Hx. destruct Hrest as [Hr|Hr]; rewrite ?Hr in Hx; [done|].
      destruct rest; [done|]. simpl in Hr, Hx. congruence. }
  unfold insert_pos at 1. fold new1.
  destruct (find_from (py "\n## ") new1 (idx + length marker)) as [p|] eqn:Hf.
  - apply find_from_Some in Hf as (Hp & Hocc & Hmin).
    pose proof (Hnone p Hp Hocc) as Hge.
    destruct (decide (p = ip1)) as [->|Hne]; [done|].
    exfalso. apply (Hmin ip1); [unfold ip1; rewrite length_app; lia | lia |].
    assert (rest ≠ []) as Hrest'.
    { intros Hnil. apply occurs_at_bound in Hocc. unfold new1 in Hocc.
      rewrite Hnil, app_nil_r in Hocc. rewrite !app_assoc in Hocc.
      unfold ip1 in Hge. rewrite !app_assoc in Hge.
      change (length (py "\n## ")) with 4 in Hocc. lia. }
    unfold new1, ip1. rewrite !app_assoc.
    rewrite <- (Nat.add_0_r (length _)). apply occurs_at_app_r. auto.
  - apply find_from_None in Hf.
    destruct (decide (rest = [])) as [Hnil|Hne].
    + unfold new1, ip1. by rewrite Hnil, !app_nil_r, !app_assoc.
    + exfalso. apply (Hf ip1); [unfold ip1; rewrite length_app; lia|].
      unfold new1, ip1. rewrite !app_assoc.
      rewrite <- (Nat.add_0_r (length _)). apply occurs_at_app_r. auto.
Qed.

(** X. Two edits below an existing heading accumulate in call order:
    when the first content ends with a character that is not white space
    and has no line that starts a level-2 heading, the second content
    goes right after it, on the next line, both before the next heading;
    the document is the text kept by the first edit, the first content,
    the second content, one blank line and the rest, and nothing of the
    first content is replaced. *)
Theorem edits_accumulate_in_order content d1 d2 idx c :
  first_occurrence marker content idx →
  last d1 = Some c → isspace c = false →
  absent (py "\n## ") (py "\n" ++ d1) →
  let ip := insert_pos content idx in
  update_skill_md_content (update_skill_md_content content d1) d2
  = rstrip (take ip content) ++ py "\n" ++ d1 ++ py "\n" ++ d2
    ++ py "\n\n" ++ drop ip content.
Proof.
  intros Hi Hlast Hc Hd1 ip.
  pose proof (heading_kept content d1 idx Hi) as Hi1.
  rewrite (update_found _ d2 idx Hi1).
  rewrite (insert_pos_after_edit content d1 idx Hi Hd1).
  rewrite (update_found content d1 idx Hi). fold ip.
  set (kept := rstrip (take ip content)).
  rewrite !(app_assoc kept) , !(app_assoc (kept ++ py "\n")),
    !(app_assoc ((kept ++ py "\n") ++ d1)).
  rewrite take_app_length, drop_app_length.
  apply last_Some in Hlast as [d1' ->].
  rewrite <- !app_assoc.
  rewrite (app_assoc kept), (app_assoc (kept ++ py "\n")).
  change ([c] ++ py "\n\n") with (c :: py "\n\n").
  rewrite (rstrip_app_keep _ c (py "\n\n") Hc).
  change (rstrip (py "\n\n")) with (@nil N).
  by rewrite <- !app_assoc.
Qed.
End editor_accumulate.

Lemma edits_accumulate_in_order_witness :
  ScanCode.update_skill_md_content
    (ScanCode.update_skill_md_content
       (ScanCode.marker ++ py "\nfoo\n\n## Next\n") (py "- a")) (py "- b")
  = ScanCode.marker ++ py "\nfoo" ++ py "\n" ++ py "- a" ++ py "\n" ++ py "- b"
    ++ py "\n\n" ++ py "\n## Next\n".
Proof.
  apply (edits_accumulate_in_order
           (ScanCode.marker ++ py "\nfoo\n\n## Next\n") (py "- a") (py "- b")
           0 97%N).
  - apply find_Some. reflexivity.
  - reflexivity.
  - reflexivity.
  - apply find_None. reflexivity.
Defined.

(* ===================================================================== *)
(** * Further properties of the codec *)
(* ===================================================================== *)

Section codec_more.
Implicit Types (pre sm body em post : pystr).

(** X. Decoding undoes wrapping: a body put between the two markers,
    with any text before and after, is what [parse_between] returns,
    provided the start marker has no occurrence before the place it was
    put at and the end marker has none before its place. *)
Theorem parse_between_wrap pre sm body em post :
  first_occurrence sm (pre ++ sm) (length pre) →
  first_occurrence em (pre ++ sm ++ body ++ em)
                   (length pre + length sm + length body) →
  parse_between (pre ++ sm ++ body ++ em ++ post) sm em = Some body.
Proof.
  intros Hsm Hem.
  set (text := pre ++ sm ++ body ++ em ++ post).
  assert (first_occurrence sm text (length pre)) as Hsm'.
  { apply (first_occurrence_agree (length (pre ++ sm)) sm (pre ++ sm));
      [|rewrite length_app; lia|done].
    unfold text. rewrite (app_assoc pre sm), take_app_length.
    by rewrite take_ge. }
  assert (first_occurrence em text (length pre + length sm + length body))
    as Hem'.
  { apply (first_occurrence_agree (length (pre ++ sm ++ body ++ em)) em
             (pre ++ sm ++ body ++ em));
      [|rewrite !length_app; lia|done].
    unfold text.
    replace (pre ++ sm ++ body ++ em ++ post)
      with ((pre ++ sm ++ body ++ em) ++ post) by by rewrite <- !app_assoc.
    rewrite take_app_length. by rewrite take_ge. }
  rewrite (parse_between_found text sm em _ _ Hsm' Hem'). f_equal.
  unfold slice, text.
  replace (pre ++ sm ++ body ++ em ++ post)
    with (((pre ++ sm) ++ body) ++ em ++ post) by by rewrite <- !app_assoc.
  rewrite take_app_length' by (rewrite !length_app; lia).
  rewrite drop_app_length' by (rewrite length_app; lia). done.
Qed.

Lemma parse_between_wrap_witness :
  parse_between (py "so: " ++ py "<<" ++ py "[1]" ++ py ">>" ++ py " done >>")
                (py "<<") (py ">>")
  = Some (py "[1]").
Proof.
  apply parse_between_wrap.
  - apply find_Some. reflexivity.
  - apply find_Some. reflexivity.
Defined.
End codec_more.

(* ===================================================================== *)
(** * Installing an extracted tool *)
(* ===================================================================== *)

Section install_more.
Import ScanCode SkillCompiler.
Variable E : externals.
Implicit Types (w : world) (func_name tool_code : pystr)
  (skill_doc : option pystr).




End install_more.


(* ===================================================================== *)
(** * The confirmation dialogue *)
(* ===================================================================== *)

Section dialogue_more.
Import ScanCode.
Variable E : externals.
Implicit Types (s : console) (v func : json) (funcs : list json).

Lemma subscript_Return v key x :
  subscript v key = Return x ↔ ∃ d, v = JObj d ∧ d !! key = Some x.
Proof.
  split.
  - destruct v as [| | | | | |d]; simpl; try done.
    destruct (d !! key) as [y|] eqn:Hk; [|done].
    intros [= <-]. by exists d.
  - intros (d & -> & Hk). simpl. by rewrite Hk.
Qed.

Lemma subscript_no_exit v key n : subscript v key ≠ SysExit n.
Proof.
  destruct v as [| | | | | |d]; simpl; try done. by destruct (d !! key).
Qed.

Lemma bind_lift_D {A B} (r : result A) (f : A → D B) s :
  (lift_D r ≫= f) s
  = match r with
    | Return a => f a s
    | Raise e => (s, Raise e)
    | SysExit n => (s, SysExit n)
    end.
Proof. unfold mbind, D_bind, lift_D. by destruct r. Qed.

Lemma bind_say {B} l (f : unit → D B) s :
  (say l ≫= f) s = f () (Console (written s ++ [l]) (stdin s)).
Proof. reflexivity. Qed.

Lemma bind_D_Return {A B} (m : D A) (f : A → D B) s s' a :
  m s = (s', Return a) → (m ≫= f) s = f a s'.
Proof. intros Hm. unfold mbind, D_bind. by rewrite Hm. Qed.

Lemma showable_subscripts func :
  showable func ↔
  ∃ n a b r, subscript func (py "name") = Return n
             ∧ subscript func (py "line_start") = Return a
             ∧ subscript func (py "line_end") = Return b
             ∧ subscript func (py "reason") = Return r.
Proof.
  split.
  - intros (d & -> & [n Hn] & [a Ha] & [b Hb] & [r Hr]).
    exists n, a, b, r. simpl. by rewrite Hn, Ha, Hb, Hr.
  - intros (n & a & b & r & Hn & Ha & Hb & Hr).
    apply subscript_Return in Hn as (d & -> & Hn).
    apply subscript_Return in Ha as (? & [= <-] & Ha).
    apply subscript_Return in Hb as (? & [= <-] & Hb).
    apply subscript_Return in Hr as (? & [= <-] & Hr).
    exists d. by repeat split.
Qed.

(** The loop over the candidates returns exactly when each of them can
    be shown, and has then written two lines for each. *)
Lemma show_candidates_shows i funcs s :
  Forall showable funcs →
  show_candidates i funcs s
  = (Console (written s ++ candidate_lines i funcs) (stdin s), Return ()).
Proof.
  intros Hall. revert i s.
  induction Hall as [|func rest Hf _ IH]; intros i s.
  - simpl. rewrite app_nil_r. by destruct s.
  - apply showable_subscripts in Hf as (n & a & b & r & Hn & Ha & Hb & Hr).
    simpl. unfold mbind, D_bind, lift_D, say.
    rewrite Hn, Ha, Hb. simpl. rewrite Hr. simpl.
    rewrite IH. simpl. by rewrite <- !app_assoc.
Qed.

Lemma show_candidates_returns i funcs s s' :
  show_candidates i funcs s = (s', Return ()) → Forall showable funcs.
Proof.
  revert i s s'. induction funcs as [|func rest IH]; intros i s s' Hrun;
    [constructor|].
  simpl in Hrun. unfold mbind, D_bind, lift_D, say in Hrun.
  destruct (subscript func (py "name")) as [n| |] eqn:Hn; try done.
  destruct (subscript func (py "line_start")) as [a| |] eqn:Ha; try done.
  destruct (subscript func (py "line_end")) as [b| |] eqn:Hb; try done.
  simpl in Hrun.
  destruct (subscript func (py "reason")) as [r| |] eqn:Hr; try done.
  simpl in Hrun. constructor.
  - apply showable_subscripts. by exists n, a, b, r.
  - match type of Hrun with
    | context [show_candidates (S i) rest ?s1] =>
        destruct (show_candidates (S i) rest s1) as [s2 [[]| |]] eqn:Hrest;
          try done; by eapply IH
    end.
Qed.

(** A value with a length whose elements can all be shown is a list. *)
Lemma showable_iter v n :
  json_truthy v = true → py_len v = Return n →
  Forall showable (py_iter v) →
  ∃ l, v = JArr l ∧ l ≠ [].
Proof.
  destruct v as [| | | |t|l|d]; simpl; try done.
  - destruct t as [|c t]; [done|]. intros _ _ Hall.
    apply Forall_cons in Hall as [(d & Hd & _) _]. done.
  - destruct l; [done|]. intros _ _ _. by eexists.
  - intros Hne _ Hall. apply negb_true_iff, bool_decide_eq_false in Hne.
    destruct (map_to_list d) as [|[k x] kvs] eqn:Hl.
    + by apply map_to_list_empty_iff in Hl.
    + simpl in Hall. apply Forall_cons in Hall as [(d' & Hd & _) _]. done.
Qed.

(** The dialogue on an analysis that offers candidates. *)
Lemma prompt_with_candidates d found l s :
  d !! py "found" = Some found → json_truthy found = true →
  d !! py "functions" = Some (JArr l) → l ≠ [] → Forall showable l →
  let shown := written s ++ [Out_detected (length l)]
               ++ candidate_lines 1 l ++ [Out_question; Out_prompt] in
  prompt_user_confirmation E (JObj d) s
  = match stdin s with
    | [] => (Console shown [], Raise EOFError)
    | line :: rest =>
      if str_eqb (lower E (strip line)) (py "y")
      then (Console shown rest, Return (JArr l))
      else (Console (shown ++ [Out_cancelled]) rest, Return (JArr []))
    end.
Proof.
  intros Hfound Htrue Hfuncs Hne Hall shown.
  unfold prompt_user_confirmation.
  rewrite bind_lift_D. simpl subscript. rewrite Hfound. cbv iota beta.
  rewrite Htrue. cbn [negb]. cbv iota.
  rewrite bind_lift_D. simpl subscript. rewrite Hfuncs. cbv iota beta.
  assert (json_truthy (JArr l) = true) as Htl by by destruct l.
  rewrite Htl. cbn [negb]. cbv iota.
  rewrite bind_lift_D. cbn [py_len]. cbv iota beta.
  rewrite bind_say. cbn [py_iter].
  rewrite (bind_D_Return _ _ _ _ _ (show_candidates_shows 1 l _ Hall)).
  rewrite bind_say. cbn [written stdin].
  unfold mbind, D_bind, input_line. cbn [written stdin].
  subst shown. generalize (candidate_lines 1 l). intros cl.
  destruct (stdin s) as [|line rest].
  - by rewrite <- !app_assoc.
  - destruct (str_eqb (lower E (strip line)) (py "y")); cbn [negb].
    + unfold mret, D_ret. by rewrite <- !app_assoc.
    + unfold say, mret, D_ret. cbn [written stdin].
      by rewrite <- !app_assoc.
Qed.

(** X. The dialogue hands candidates on only after a yes: whenever
    [prompt_user_confirmation] returns a non-empty result, the analysis
    is an object whose [found] is truthy and whose [functions] is a
    non-empty list of objects that each have [name], [line_start],
    [line_end] and [reason]; the result is that list; every candidate was
    shown before the question; and exactly one input line was read, which
    stripped and lower-cased is [y]. *)
Theorem confirmation_needs_yes analysis s s' v :
  prompt_user_confirmation E analysis s = (s', Return v) →
  json_truthy v = true →
  ∃ d found l line,
    analysis = JObj d
    ∧ d !! py "found" = Some found ∧ json_truthy found = true
    ∧ d !! py "functions" = Some (JArr l) ∧ v = JArr l
    ∧ Forall showable l
    ∧ stdin s = line :: stdin s'
    ∧ lower E (strip line) = py "y"
    ∧ written s' = written s ++ [Out_detected (length l)]
                   ++ candidate_lines 1 l ++ [Out_question; Out_prompt].
Proof.
  intros Hrun Hv. pose proof Hrun as Hrun0.
  unfold prompt_user_confirmation in Hrun.
  rewrite bind_lift_D in Hrun.
  destruct (subscript analysis (py "found")) as [found| |] eqn:Hfound;
    try done.
  apply subscript_Return in Hfound as (d & -> & Hfound).
  destruct (json_truthy found) eqn:Htrue; cbn [negb] in Hrun;
    [|by injection Hrun as <- <-].
  rewrite bind_lift_D in Hrun. cbn [subscript] in Hrun.
  destruct (d !! py "functions") as [functions|] eqn:Hfuncs; try done.
  destruct (json_truthy functions) eqn:Htf; cbn [negb] in Hrun;
    [|by injection Hrun as <- <-].
  rewrite bind_lift_D in Hrun.
  destruct (py_len functions) as [n| |] eqn:Hlen; try done.
  rewrite bind_say in Hrun.
  unfold mbind at 1, D_bind at 1 in Hrun.
  match type of Hrun with
  | context [show_candidates 1 (py_iter functions) ?s1] =>
      destruct (show_candidates 1 (py_iter functions) s1)
        as [s2 [[]| |]] eqn:Hshow; try done
  end.
  pose proof (show_candidates_returns _ _ _ _ Hshow) as Hall.
  destruct (showable_iter functions n Htf Hlen Hall) as (l & -> & Hne).
  cbn [py_iter] in Hall. clear Hrun Hshow.
  rewrite (prompt_with_candidates d found l s Hfound Htrue Hfuncs Hne Hall)
    in Hrun0.
  destruct (stdin s) as [|line rest] eqn:Hin; [done|].
  destruct (str_eqb (lower E (strip line)) (py "y")) eqn:Hy.
  - injection Hrun0 as <- <-. apply str_eqb_eq in Hy.
    exists d, found, l, line. by repeat split.
  - injection Hrun0 as <- <-. done.
Qed.

(** X. On an analysis that offers candidates, with a truthy [found] and a
    non-empty [functions] list of objects that have the four keys shown,
    the answer alone decides: the dialogue shows the count, two lines for
    each candidate and the question, reads one line, and returns the
    whole list when the line stripped and lower-cased is [y], the empty
    list after [已取消。] for any other line, and ends in [EOFError]
    when there is no line. *)
Theorem confirmation_answer_decides d found l s :
  d !! py "found" = Some found → json_truthy found = true →
  d !! py "functions" = Some (JArr l) → l ≠ [] → Forall showable l →
  let shown := written s ++ [Out_detected (length l)]
               ++ candidate_lines 1 l ++ [Out_question; Out_prompt] in
  prompt_user_confirmation E (JObj d) s
  = match stdin s with
    | [] => (Console shown [], Raise EOFError)
    | line :: rest =>
      if str_eqb (lower E (strip line)) (py "y")
      then (Console shown rest, Return (JArr l))
      else (Console (shown ++ [Out_cancelled]) rest, Return (JArr []))
    end.
Proof. apply prompt_with_candidates. Qed.

(** X. A reply without a usable analysis block leads to no extraction:
    when the block is missing or empty, [analyze_code] returns after its
    one service call and one warning, with no file changed, and on the
    value it returns [prompt_user_confirmation] gives the empty list
    after one line, without asking and without reading input. *)
Theorem unparsed_analysis_extracts_nothing code w s :
  truthy (analysis_block
            (service E ANALYSIS_SYSTEM_PROMPT (analysis_request code)))
  = false →
  ∃ analysis,
    analyze_code E code w
    = (log_all [ServiceCall ANALYSIS_SYSTEM_PROMPT (analysis_request code);
                Printed Warn_analysis_unparsed] w,
       Return analysis)
    ∧ prompt_user_confirmation E analysis s
      = (Console (written s ++ [Out_nothing_detected]) (stdin s),
         Return (JArr [])).
Proof.
  intros Hblock. unfold analysis_block, analysis_request in Hblock.
  eexists. split.
  - unfold analyze_code, call_service.
    unfold mbind at 1, M_bind at 1. cbv iota beta.
    destruct (parse_between _ _ _) as [[|c t]|]; try done;
      unfold decode_analysis, print, mbind, M_bind, mret, M_ret, log_all, log;
      simpl; by rewrite <- app_assoc.
  - unfold prompt_user_confirmation. rewrite bind_lift_D.
    cbn [subscript]. rewrite lookup_insert_eq. reflexivity.
Qed.
End dialogue_more.

Lemma confirmation_needs_yes_witness :
  ∃ d found l line,
    JObj sample_functions = JObj d
    ∧ d !! py "found" = Some found ∧ json_truthy found = true
    ∧ d !! py "functions" = Some (JArr l)
    ∧ JArr [sample_candidate] = JArr l
    ∧ Forall showable l
    ∧ [py " y "; py "n"] = line :: [py "n"]
    ∧ lower stub (strip line) = py "y"
    ∧ [Out_detected 1;
       Out_candidate 1 (JStr (py "rate")) (JInt 1) (JInt 9);
       Out_reason (JStr (py "pricing rule")); Out_question; Out_prompt]
      = [] ++ [Out_detected (length l)]
        ++ candidate_lines 1 l ++ [Out_question; Out_prompt].
Proof.
  apply (confirmation_needs_yes stub (JObj sample_functions)
           (Console [] [py " y "; py "n"])
           (Console [Out_detected 1;
                     Out_candidate 1 (JStr (py "rate")) (JInt 1) (JInt 9);
                     Out_reason (JStr (py "pricing rule"));
                     Out_question; Out_prompt] [py "n"])
           (JArr [sample_candidate])).
  - vm_compute. reflexivity.
  - reflexivity.
Defined.

Lemma confirmation_answer_decides_witness :
  prompt_user_confirmation stub (JObj sample_functions)
    (Console [] [py "yes"])
  = (Console ([Out_detected 1] ++ candidate_lines 1 [sample_candidate]
              ++ [Out_question; Out_prompt; Out_cancelled]) [],
     Return (JArr [])).
Proof.
  apply (confirmation_answer_decides stub sample_functions (JBool true)
           [sample_candidate] (Console [] [py "yes"])).
  - vm_compute. reflexivity.
  - reflexivity.
  - vm_compute. reflexivity.
  - discriminate.
  - constructor; [|constructor]. eexists. split; [reflexivity|].
    repeat split; vm_compute; by eexists.
Defined.

Lemma unparsed_analysis_extracts_nothing_witness :
  ∃ analysis,
    ScanCode.analyze_code stub (py "x = 1") sample_world
    = (log_all [ServiceCall ANALYSIS_SYSTEM_PROMPT
                  (analysis_request (py "x = 1"));
                Printed Warn_analysis_unparsed] sample_world,
       Return analysis)
    ∧ prompt_user_confirmation stub analysis (Console [] [py "y"])
      = (Console ([] ++ [Out_nothing_detected]) [py "y"], Return (JArr [])).
Proof.
  apply (unparsed_analysis_extracts_nothing stub (py "x = 1") sample_world
           (Console [] [py "y"])).
  reflexivity.
Defined.
